(** * Project service of the self-hosted API: a shallow embedding

    Source: [apps/selfhosted/src/project/project.service.ts].

    The service is TypeScript over untyped data ([project: any]), so the
    embedding carries a small universe of JavaScript values, the ECMAScript
    conversions the code calls ([Number], [Boolean], template literals), the
    lodash helpers it imports ([_isNull], [_isString], [_join], [_split],
    [_size], [_trim], [_isEmpty], [_find], [_map]) and the exceptions it
    throws.  Objects are finite maps from property names to values. *)

From Stdlib Require Import ZArith String Ascii List Bool Lia.
From Stdlib Require Import Floats.SpecFloat.
From stdpp Require Import base option gmap strings list pretty.

Import ListNotations.
Local Open Scope string_scope.
Set Warnings "-register-all,-clear-no-such-hyp".

(* ================================================================== *)
(** ** JavaScript values *)
(* ================================================================== *)

(** A JavaScript number is an IEEE-754 double; [spec_float] is its
    unbounded specification type. *)
Definition number : Set := spec_float.

Definition NaN : number := S754_nan.
Definition num_zero : number := S754_zero false.
Definition num_one : number := S754_finite false 4503599627370496 (-52).

(** What a property of a row, a DTO or a Project holds: primitives and
    arrays of them.  (Nested plain objects, functions and symbols do not
    occur in the data this service moves.) *)
Inductive value : Type :=
  | VUndefined
  | VNull
  | VBool (b : bool)
  | VNum (n : number)
  | VStr (s : string)
  | VArr (elems : list value).

(** A plain object: its own enumerable data properties. *)
Abbreviation obj := (gmap string value).

(** An argument of type [any]: a plain object or a non-object value. *)
Inductive any : Type :=
  | AVal (v : value)
  | AObj (o : obj).

(** Property read [o.k]: a missing property reads as [undefined]. *)
Definition get (o : obj) (k : string) : value := default VUndefined (o !! k).

(** Property write [o.k = v] on a fresh copy. *)
Definition set (o : obj) (k : string) (v : value) : obj := <[k := v]> o.

(** The exceptions the service throws (NestJS HTTP exceptions), and [Error]
    for any failure raised by an external client. *)
Inductive exception : Type :=
  | ForbiddenException (msg : string)
  | BadRequestException (msg : string)
  | UnprocessableEntityException (msg : string)
  | InternalServerErrorException (msg : string)
  | ConflictException (msg : string)
  | Error (msg : string).

(** Outcome of a call: it returns or it throws. *)
Inductive result (A : Type) : Type :=
  | Ok (a : A)
  | Throw (e : exception).
Arguments Ok {A} a.
Arguments Throw {A} e.

Definition res_bind {A B} (r : result A) (k : A → result B) : result B :=
  match r with
  | Ok a => k a
  | Throw e => Throw e
  end.

(** Run [f] on each element in order, stopping at the first throw: what a
    throwing callback does to [_map]. *)
Fixpoint for_each {A} (f : A → result unit) (l : list A) : result unit :=
  match l with
  | [] => Ok tt
  | x :: rest => res_bind (f x) (fun _ => for_each f rest)
  end.

(* ================================================================== *)
(** ** Strings *)
(* ================================================================== *)

Definition comma : ascii := ","%char.

Definition char_str (c : ascii) : string := String c EmptyString.

(** [String.prototype.split] with a one-character separator: never an
    empty array, [split_on c ""] is [[""]]. *)
Fixpoint split_on (sep : ascii) (s : string) : list string :=
  match s with
  | EmptyString => [EmptyString]
  | String c rest =>
      if Ascii.eqb c sep then EmptyString :: split_on sep rest
      else match split_on sep rest with
           | [] => [char_str c]
           | piece :: pieces => String c piece :: pieces
           end
  end.

(** A string of the model is the UTF-8 encoding of a JavaScript string.
    A byte below 192 that starts no sequence stands for the character of
    its value; a lead byte announces one, two or three continuation
    bytes. *)
Definition is_continuation (b : N) : bool := ((128 <=? b) && (b <? 192))%N.

(** The payload of a first byte and the number of continuation bytes it
    announces. *)
Definition utf8_lead (b : N) : N * nat :=
  if (b <? 192)%N then (b, 0%nat)
  else if (b <? 224)%N then ((b - 192)%N, 1%nat)
  else if (b <? 240)%N then ((b - 224)%N, 2%nat)
  else if (b <? 248)%N then ((b - 240)%N, 3%nat)
  else (b, 0%nat).

(** The code points of a string, each with the bytes that encode it.
    [cp] and [bytes] hold the sequence under way and [need] the number of
    continuation bytes it still lacks; a sequence cut short is one unit,
    read as U+FFFD. *)
Fixpoint utf8_units_from (cp : N) (bytes : string) (need : nat) (s : string)
  : list (N * string) :=
  match s with
  | EmptyString =>
      match need with
      | O => []
      | S _ => [(65533%N, bytes)]
      end
  | String c rest =>
      let b := N_of_ascii c in
      if match need with O => false | S _ => is_continuation b end then
        let cp' := (cp * 64 + (b - 128))%N in
        let bytes' := bytes +:+ char_str c in
        match need with
        | 1%nat => (cp', bytes') :: utf8_units_from 0%N EmptyString 0 rest
        | _ => utf8_units_from cp' bytes' (pred need) rest
        end
      else
        match need with
        | O => []
        | S _ => [(65533%N, bytes)]
        end ++
        match utf8_lead b with
        | (first, O) => (first, char_str c) :: utf8_units_from 0%N EmptyString 0 rest
        | (first, S n) => utf8_units_from first (char_str c) (S n) rest
        end
  end.

Definition utf8_units (s : string) : list (N * string) :=
  utf8_units_from 0%N EmptyString 0 s.

Definition code_points (s : string) : list N := List.map fst (utf8_units s).

(** A UTF-16 code unit as a string of its own: three bytes for the units
    from U+0800 on, the surrogates among them. *)
Definition three_bytes (unit : N) : string :=
  char_str (ascii_of_N (224 + unit / 4096))
  +:+ char_str (ascii_of_N (128 + (unit / 64) mod 64))
  +:+ char_str (ascii_of_N (128 + unit mod 64)).

(** The characters of a string as indexing sees them, [s[0]], [s[1]], ...:
    one per UTF-16 code unit, so a code point beyond the basic plane gives
    its two surrogates. *)
Definition chars (s : string) : list string :=
  flat_map
    (fun unit : N * string =>
       let (cp, bytes) := unit in
       if (65536 <=? cp)%N then
         [three_bytes (55296 + (cp - 65536) / 1024);
          three_bytes (56320 + (cp - 65536) mod 1024)]
       else [bytes])
    (utf8_units s).

(** [string.length]: the number of UTF-16 code units, two for a code
    point beyond the basic plane. *)
Definition utf16_length (s : string) : nat :=
  list_sum (List.map (fun cp => if (65536 <=? cp)%N then 2%nat else 1%nat)
                     (code_points s)).

(** White space as [\s] sees it: tab, line feed, vertical tab, form feed,
    carriage return, space, U+00A0, U+1680, U+2000 to U+200A, U+2028,
    U+2029, U+202F, U+205F, U+3000 and U+FEFF. *)
Definition is_space (cp : N) : bool :=
  (((9 <=? cp) && (cp <=? 13)) || (cp =? 32) || (cp =? 160) || (cp =? 5760)
   || ((8192 <=? cp) && (cp <=? 8202)) || (cp =? 8232) || (cp =? 8233)
   || (cp =? 8239) || (cp =? 8287) || (cp =? 12288) || (cp =? 65279))%N.

Fixpoint trim_start (units : list (N * string)) : list (N * string) :=
  match units with
  | [] => []
  | unit :: rest => if is_space (fst unit) then trim_start rest else units
  end.

Fixpoint trim_end (units : list (N * string)) : list (N * string) :=
  match units with
  | [] => []
  | unit :: rest =>
      match trim_end rest with
      | [] => if is_space (fst unit) then [] else [unit]
      | kept => unit :: kept
      end
  end.

(** A string without its leading and trailing white space. *)
Definition trim (s : string) : string :=
  String.concat EmptyString (List.map snd (trim_start (trim_end (utf8_units s)))).

(** Text in the ASCII range: every byte is below 128. *)
Fixpoint all_ascii (s : string) : bool :=
  match s with
  | EmptyString => true
  | String c rest => (N_of_ascii c <? 128)%N && all_ascii rest
  end.

Definition is_empty_string (s : string) : bool :=
  match s with
  | EmptyString => true
  | String _ _ => false
  end.

(* ================================================================== *)
(** ** ECMAScript conversions *)
(* ================================================================== *)

(** The conversions between strings and doubles and the JSON codec are
    built into the JavaScript engine; the model takes them as given. *)
Class Engine : Type := {
  (** [StringToNumber]: the numeric value of a string, [NaN] if none. *)
  StringToNumber : string → number;
  (** [Number::toString]: the shortest decimal that reads back. *)
  NumberToString : number → string;
  (** [JSON.stringify] of a value that is not [undefined]. *)
  JSON_stringify : any → string;
  (** [JSON.parse]; [None] stands for the [SyntaxError] it throws. *)
  JSON_parse : string → option any;
}.

(** lodash counts the symbols of a string that holds astral characters,
    combining marks, variation selectors or joiners with its [unicodeSize]
    (the matches of its [reUnicode] pattern); the model takes that count
    as given. *)
Class Lodash : Type := {
  unicodeSize : string → nat;
}.

Section Conversions.
Context `{Engine} `{Lodash}.

(** [Array.prototype.join] on the elements already converted: [undefined]
    and [null] elements contribute the empty string. *)
Definition join_elem (to_s : value → string) (v : value) : string :=
  match v with
  | VUndefined | VNull => EmptyString
  | _ => to_s v
  end.

(** [ToString] of ECMAScript (what [x + ''] and a template literal do). *)
Fixpoint ToString (v : value) : string :=
  match v with
  | VUndefined => "undefined"
  | VNull => "null"
  | VBool true => "true"
  | VBool false => "false"
  | VNum n => NumberToString n
  | VStr s => s
  | VArr elems => String.concat "," (List.map (join_elem ToString) elems)
  end.

(** [Number(v)]. *)
Definition Number (v : value) : number :=
  match v with
  | VUndefined => NaN
  | VNull => num_zero
  | VBool true => num_one
  | VBool false => num_zero
  | VNum n => n
  | VStr s => StringToNumber s
  | VArr _ => StringToNumber (ToString v)
  end.

(** [Boolean(v)]: the falsy values are [undefined], [null], [false], [+0],
    [-0], [NaN] and the empty string. *)
Definition Boolean (v : value) : bool :=
  match v with
  | VUndefined | VNull => false
  | VBool b => b
  | VNum (S754_zero _) | VNum S754_nan => false
  | VNum _ => true
  | VStr s => negb (is_empty_string s)
  | VArr _ => true
  end.

(** Object spread [{ ...x }]: the own enumerable properties of [x]; none
    for [undefined], [null], booleans and numbers, the indexed characters
    of a string, the indexed elements of an array. *)
Definition indexed (l : list value) : obj :=
  list_to_map (imap (fun i v => (pretty i, v)) l).

Definition spread (x : any) : obj :=
  match x with
  | AObj o => o
  | AVal (VStr s) => indexed (List.map VStr (chars s))
  | AVal (VArr elems) => indexed elems
  | AVal _ => ∅
  end.

(* ================================================================== *)
(** ** lodash helpers *)
(* ================================================================== *)

Definition _isNull (v : value) : bool :=
  match v with VNull => true | _ => false end.

Definition _isString (v : value) : bool :=
  match v with VStr _ => true | _ => false end.

(** The elements lodash iterates over: those of an array, the characters
    of a string, nothing for the other values of the universe. *)
Definition array_like (v : value) : list value :=
  match v with
  | VArr elems => elems
  | VStr s => List.map VStr (chars s)
  | _ => []
  end.

(** [_join(array, separator)]:
    [array == null ? '' : nativeJoin.call(array, separator)]. *)
Definition _join (v : value) (sep : string) : string :=
  match v with
  | VUndefined | VNull => EmptyString
  | _ => String.concat sep (List.map (join_elem ToString) (array_like v))
  end.

(** lodash [baseToString]: strings as they are, arrays elementwise (so a
    [null] element shows as "null"), negative zero as "-0". *)
Fixpoint baseToString (v : value) : string :=
  match v with
  | VStr s => s
  | VArr elems => String.concat "," (List.map baseToString elems)
  | VNum (S754_zero true) =>
      if String.eqb (NumberToString (S754_zero true)) "0" then "-0"
      else NumberToString (S754_zero true)
  | _ => ToString v
  end.

(** [_.toString(v)]: [v == null ? '' : baseToString(v)]. *)
Definition _toString (v : value) : string :=
  match v with
  | VUndefined | VNull => EmptyString
  | _ => baseToString v
  end.

(** [_split(string, ',')]: [toString(string).split(',')]. *)
Definition _split (v : value) (sep : ascii) : list string :=
  split_on sep (_toString v).

(** [_trim(string)]: [toString(string)] without leading and trailing
    white space. *)
Definition _trim (v : value) : string := trim (_toString v).

(** lodash [hasUnicode]: a surrogate (so any code point beyond the basic
    plane), a combining mark (U+0300 to U+036F, U+FE20 to U+FE2F, U+20D0 to
    U+20FF), a variation selector (U+FE0E, U+FE0F) or the joiner U+200D. *)
Definition is_unicode_mark (cp : N) : bool :=
  ((cp =? 8205) || ((55296 <=? cp) && (cp <=? 57343)) || (65536 <=? cp)
   || ((768 <=? cp) && (cp <=? 879)) || ((65056 <=? cp) && (cp <=? 65071))
   || ((8400 <=? cp) && (cp <=? 8447)) || (cp =? 65038) || (cp =? 65039))%N.

Definition hasUnicode (s : string) : bool :=
  existsb is_unicode_mark (code_points s).

(** lodash [stringSize]:
    [hasUnicode(string) ? unicodeSize(string) : string.length]. *)
Definition stringSize (s : string) : nat :=
  if hasUnicode s then unicodeSize s else utf16_length s.

(** [_size(collection)]: [stringSize] of a string, the length of an array,
    0 for [null], [undefined], booleans and numbers. *)
Definition _size (v : value) : nat :=
  match v with
  | VStr s => stringSize s
  | _ => length (array_like v)
  end.

(** [_isEmpty(value)]: no elements, no characters, no own properties;
    [true] for [null], [undefined], booleans and numbers. *)
Definition _isEmpty (x : any) : bool :=
  match x with
  | AVal (VStr s) => is_empty_string s
  | AVal (VArr elems) => match elems with [] => true | _ => false end
  | AVal _ => true
  | AObj o => bool_decide (dom o = ∅)
  end.

End Conversions.

(* ================================================================== *)
(** ** The service's surroundings *)
(* ================================================================== *)

(** What the service imports from [../common/constants]; the model takes
    these as given. *)
Class Constants : Type := {
  (** [isValidPID(pid)] *)
  isValidPID : value → bool;
  (** [IP_REGEX.test(s)] *)
  IP_REGEX_test : string → bool;
  (** [ORIGINS_REGEX.test(s)] *)
  ORIGINS_REGEX_test : string → bool;
  (** [getRedisProjectKey(pid)] *)
  getRedisProjectKey : string → string;
  (** [redisProjectCacheTimeout], in seconds *)
  redisProjectCacheTimeout : Z;
}.

(** Node's [net.isIP]: 4, 6, or 0 for a string that is no IP address. *)
Class Net : Type := {
  net_isIP : string → Z;
}.

(** The bound parameters of a ClickHouse command: [{ params: { pid, from, to } }]. *)
Record query_params : Type := {
  param_pid : string;
  param_from : string;
  param_to : string;
}.

(** How a promise ends: when it settles, and whether it resolved or was
    rejected. *)
Record settlement : Type := {
  settled_at : nat;
  outcome : result unit;
}.

(** The durable store as the service sees it during one call. *)
Class Store : Type := {
  (** [getProjectsClickhouse(pid)] of [../common/utils]: what it resolves
      to, or the error it rejects with. *)
  getProjectsClickhouse : string → result any;
  (** [clickhouse.query(text, params).toPromise()] *)
  clickhouse_query : string → query_params → settlement;
}.

(** What a call does to the outside, in order. *)
Inductive effect : Type :=
  | RedisGet (key : string)
  | RedisSet (key payload mode : string) (ttl : Z)
  | SelectProject (pid : string)
  | ClickhouseQuery (text : string) (params : query_params).

(** The cache (each key with its payload and expiry) and the journal of
    effects so far, latest last. *)
Record World : Type := {
  redis : gmap string (string * Z);
  journal : list effect;
}.

Definition record (e : effect) (w : World) : World :=
  {| redis := redis w; journal := journal w ++ [e] |}.

(** Asynchronous service code: state passing with exceptions. *)
Definition IO (A : Type) : Type := World → result A * World.

Definition ret {A} (a : A) : IO A := fun w => (Ok a, w).

Definition throw {A} (e : exception) : IO A := fun w => (Throw e, w).

Definition bind {A B} (m : IO A) (k : A → IO B) : IO B :=
  fun w =>
    match m w with
    | (Ok a, w') => k a w'
    | (Throw e, w') => (Throw e, w')
    end.

Notation "'let*' x ':=' m 'in' k" := (bind m (fun x => k))
  (at level 10, x binder, k at level 200).

(** [await redis.get(key)]: the payload, or [null]. *)
Definition redis_get (key : string) : IO value :=
  fun w =>
    (Ok (match redis w !! key with
         | Some (payload, _) => VStr payload
         | None => VNull
         end),
     record (RedisGet key) w).

(** [await redis.set(key, payload, 'EX', ttl)] *)
Definition redis_set (key payload mode : string) (ttl : Z) : IO unit :=
  fun w =>
    (Ok tt,
     {| redis := <[key := (payload, ttl)]> (redis w);
        journal := journal w ++ [RedisSet key payload mode ttl] |}).

(** The rejection [Promise.all] reports: that of the promise rejected
    first (the earlier in the array on a tie), with its time. *)
Fixpoint first_rejection (ps : list settlement) : option (nat * exception) :=
  match ps with
  | [] => None
  | p :: rest =>
      match outcome p, first_rejection rest with
      | Ok _, later => later
      | Throw e, None => Some (settled_at p, e)
      | Throw e, Some (t', e') =>
          if (settled_at p <=? t')%nat then Some (settled_at p, e)
          else Some (t', e')
      end
  end.

(** [await Promise.all(ps)]: resolves when every promise resolved,
    rejects with the first rejection otherwise. *)
Definition Promise_all (ps : list settlement) : result unit :=
  match first_rejection ps with
  | None => Ok tt
  | Some (_, e) => Throw e
  end.

Definition await {A} (r : result A) : IO A := fun w => (r, w).

(* ================================================================== *)
(** ** ProjectService *)
(* ================================================================== *)

Section ProjectService.
Context `{Engine} `{Lodash} `{Constants} `{Net} `{Store}.

(** [await getProjectsClickhouse(pid)] *)
Definition select_project (pid : string) : IO any :=
  fun w => (getProjectsClickhouse pid, record (SelectProject pid) w).

(** [clickhouse.query(text, params).toPromise()]: the command is issued
    at once; the promise settles later. *)
Definition query_promise (text : string) (params : query_params) : IO settlement :=
  fun w => (Ok (clickhouse_query text params), record (ClickhouseQuery text params) w).

Definition formatToClickhouse (project : any) : obj :=
  let updProject := spread project in
  let updProject := set updProject "active" (VNum (Number (get updProject "active"))) in
  let updProject := set updProject "public" (VNum (Number (get updProject "public"))) in
  let updProject :=
    if negb (_isNull (get updProject "origins")) then
      set updProject "origins"
        (if _isString (get updProject "origins")
         then get updProject "origins"
         else VStr (_join (get updProject "origins") ","))
    else updProject in
  let updProject :=
    if negb (_isNull (get updProject "ipBlacklist")) then
      set updProject "ipBlacklist"
        (if _isString (get updProject "ipBlacklist")
         then get updProject "ipBlacklist"
         else VStr (_join (get updProject "ipBlacklist") ","))
    else updProject in
  updProject.

Definition formatFromClickhouse (project : any) : obj :=
  let updProject := spread project in
  let updProject := set updProject "active" (VBool (Boolean (get updProject "active"))) in
  let updProject := set updProject "public" (VBool (Boolean (get updProject "public"))) in
  let updProject :=
    set updProject "origins"
      (if _isNull (get updProject "origins") then VArr []
       else VArr (List.map VStr (_split (get updProject "origins") comma))) in
  let updProject :=
    set updProject "ipBlacklist"
      (if _isNull (get updProject "ipBlacklist") then VArr []
       else VArr (List.map VStr (_split (get updProject "ipBlacklist") comma))) in
  updProject.

Definition getRedisProject (pid : string) : IO any :=
  let pidKey := getRedisProjectKey pid in
  let* project := redis_get pidKey in
  if _isEmpty (AVal project) then
    let* row := select_project pid in
    let project := formatFromClickhouse row in
    if _isEmpty (AObj project) then
      throw (BadRequestException "The provided Project ID (pid) is incorrect")
    else
      let* _ := redis_set pidKey (JSON_stringify (AObj project)) "EX"
                  redisProjectCacheTimeout in
      ret (AObj project)
  else
    match JSON_parse (ToString project) with
    | Some project => ret project
    | None => throw (InternalServerErrorException "Error while processing project")
    end.

(** [uid: string | null] as a value. *)
Definition nullable (s : option string) : value :=
  match s with
  | Some s => VStr s
  | None => VNull
  end.

Definition allowedToView (project : obj) (uid : option string) : result value :=
  if Boolean (get project "public") || Boolean (nullable uid) then Ok VNull
  else Throw (ForbiddenException "You are not allowed to view this project").

(** [id === pid] for a string [pid]. *)
Definition strict_equal_str (v : value) (s : string) : bool :=
  match v with
  | VStr t => String.eqb t s
  | _ => false
  end.

(** [_find(collection, predicate)]: the first element the predicate
    holds of, or [undefined] ([None]). *)
Definition _find {A} (collection : list A) (predicate : A → bool) : option A :=
  List.find predicate collection.

(** [!x] for an object or [undefined]: an object is truthy. *)
Definition not_found {A} (x : option A) : bool :=
  match x with
  | Some _ => false
  | None => true
  end.

Definition isPIDUnique (projects : list obj) (pid : string) : bool :=
  not_found (_find projects (fun p => strict_equal_str (get p "id") pid)).

Definition checkIfIDUnique (projects : list obj) (pid : string) : result unit :=
  let isUnique := isPIDUnique projects pid in
  if negb isUnique then
    Throw (BadRequestException "Selected project ID is already in use")
  else Ok tt.

Definition queryAnalytics : string :=
  "ALTER TABLE analytics DELETE WHERE pid = {pid:FixedString(12)} AND created BETWEEN {from:String} AND {to:String}".
Definition queryCustomEvents : string :=
  "ALTER TABLE customEV DELETE WHERE pid = {pid:FixedString(12)} AND created BETWEEN {from:String} AND {to:String}".
Definition queryPerformance : string :=
  "ALTER TABLE performance DELETE WHERE pid = {pid:FixedString(12)} AND created BETWEEN {from:String} AND {to:String}".

Definition removeDataFromClickhouse (pid from to : string) : IO unit :=
  let params := {| param_pid := pid; param_from := from; param_to := to |} in
  let* p1 := query_promise queryAnalytics params in
  let* p2 := query_promise queryCustomEvents params in
  let* p3 := query_promise queryPerformance params in
  await (Promise_all [p1; p2; p3]).

Definition check_host (host : value) : result unit :=
  if negb (ORIGINS_REGEX_test (_trim host)) then
    Throw (ConflictException ("Host " +:+ ToString host +:+ " is not correct"))
  else Ok tt.

Definition check_ip (ip : value) : result unit :=
  if (net_isIP (_trim ip) =? 0)%Z && negb (IP_REGEX_test (_trim ip)) then
    Throw (ConflictException ("IP address " +:+ ToString ip +:+ " is not correct"))
  else Ok tt.

Definition validateProject (projectDTO : obj) (creatingProject : bool) : result unit :=
  if (50 <? _size (get projectDTO "name"))%nat then
    Throw (UnprocessableEntityException "The project name is too long")
  else if creatingProject then Ok tt
  else if negb (isValidPID (get projectDTO "id")) then
    Throw (UnprocessableEntityException "The provided Project ID (pid) is incorrect")
  else if (300 <? _size (VStr (_join (get projectDTO "origins") ",")))%nat then
    Throw (UnprocessableEntityException
             "The list of allowed origins has to be smaller than 300 symbols")
  else if (300 <? _size (VStr (_join (get projectDTO "ipBlacklist") ",")))%nat then
    Throw (UnprocessableEntityException
             "The list of allowed blacklisted IP addresses must be less than 300 characters.")
  else
    res_bind (for_each check_host (array_like (get projectDTO "origins"))) (fun _ =>
    for_each check_ip (array_like (get projectDTO "ipBlacklist"))).

End ProjectService.

(* ================================================================== *)
(** ** The two shapes of a project *)
(* ================================================================== *)

(** The in-memory shape of a Project: booleans and lists of strings. *)
Definition is_string_list (v : value) : bool :=
  match v with
  | VArr elems => forallb _isString elems
  | _ => false
  end.

Definition is_bool (v : value) : bool :=
  match v with VBool _ => true | _ => false end.

Definition is_Project (o : obj) : bool :=
  is_bool (get o "active") && is_bool (get o "public")
  && is_string_list (get o "origins") && is_string_list (get o "ipBlacklist").

(** The storage shape of a row: 0/1 numbers, and each list as one
    comma-joined string or [null]. *)
Definition is_flag (v : value) : bool :=
  match v with
  | VNum (S754_zero false) => true
  | VNum (S754_finite false 4503599627370496 (-52)) => true
  | _ => false
  end.

Definition is_joined (v : value) : bool :=
  match v with VNull | VStr _ => true | _ => false end.

Definition is_row (o : obj) : bool :=
  is_flag (get o "active") && is_flag (get o "public")
  && is_joined (get o "origins") && is_joined (get o "ipBlacklist").

(** The properties the translators rewrite; every other one is copied. *)
Definition list_keys : list string := ["active"; "public"; "origins"; "ipBlacklist"].

Definition is_num (v : value) : bool :=
  match v with VNum _ => true | _ => false end.

(** No occurrence of [c] in [s]. *)
Fixpoint lacks (c : ascii) (s : string) : bool :=
  match s with
  | EmptyString => true
  | String d rest => negb (Ascii.eqb d c) && lacks c rest
  end.

Section Lists.
Context `{Engine}.

(** What [formatToClickhouse] stores for a list field that is not [null]. *)
Definition joined (v : value) : value :=
  if _isString v then v else VStr (_join v ",").

(** What [formatFromClickhouse] returns for a list field. *)
Definition unjoined (v : value) : value :=
  if _isNull v then VArr [] else VArr (List.map VStr (_split v comma)).

End Lists.

(* ================================================================== *)
(** ** Identifiers and cache teardown *)
(* ================================================================== *)

(** A list of characters that can be used in a Project ID. *)
Definition LEGAL_PID_CHARACTERS : string :=
  "1234567890QWERTYUIOPASDFGHJKLZXCVBNMqwertyuiopasdfghjklzxcvbnm".

(** The ASCII digits and letters. *)
Definition is_digit_or_letter (c : ascii) : bool :=
  let n := nat_of_ascii c in
  ((48 <=? n)%nat && (n <=? 57)%nat)
  || ((65 <=? n)%nat && (n <=? 90)%nat)
  || ((97 <=? n)%nat && (n <=? 122)%nat).

(** [redis.del(key)] as the client answers it: the error it rejects with,
    if it does. *)
Class RedisClient : Type := {
  redis_del_rejection : string → option exception;
}.

(** What [deleteProjectRedis] does besides changing the cache. *)
Inductive teardown_effect : Type :=
  | RedisDel (key : string)
  | ConsoleError (line : string).

Definition exception_name (e : exception) : string :=
  match e with
  | ForbiddenException _ => "ForbiddenException"
  | BadRequestException _ => "BadRequestException"
  | UnprocessableEntityException _ => "UnprocessableEntityException"
  | InternalServerErrorException _ => "InternalServerErrorException"
  | ConflictException _ => "ConflictException"
  | Error _ => "Error"
  end.

Definition exception_message (e : exception) : string :=
  match e with
  | ForbiddenException msg | BadRequestException msg
  | UnprocessableEntityException msg | InternalServerErrorException msg
  | ConflictException msg | Error msg => msg
  end.

(** [Error.prototype.toString], which a template literal calls: the name,
    then the message if there is one. *)
Definition Error_toString (e : exception) : string :=
  if is_empty_string (exception_message e) then exception_name e
  else exception_name e +:+ ": " +:+ exception_message e.

Section Teardown.
Context `{Constants} `{RedisClient}.

(** [await redis.del(key)]: the entry is removed, or the call rejects and
    the cache is as it was. *)
Definition redis_del (key : string) : IO unit :=
  fun w =>
    match redis_del_rejection key with
    | None => (Ok tt, {| redis := delete key (redis w); journal := journal w |})
    | Some e => (Throw e, w)
    end.

(** [deleteProjectRedis]: the effects of the call on the cache client and
    the console are returned beside the world. *)
Definition deleteProjectRedis (id : string) (w : World)
  : result unit * World * list teardown_effect :=
  let key := getRedisProjectKey id in
  match redis_del key w with
  | (Ok _, w') => (Ok tt, w', [RedisDel key])
  | (Throw e, w') =>
      (Ok tt, w',
       [RedisDel key;
        ConsoleError ("Error deleting project " +:+ id +:+ " from redis: "
                      +:+ Error_toString e)])
  end.

End Teardown.

(* ================================================================== *)
(** ** Test doubles *)
(* ================================================================== *)

(** Stand-ins for the engine, the constants, [net.isIP] and the store,
    exact on the fragment the examples below exercise; the theorems hold
    for every instance, the examples run on these. *)
Module Fixture.

Definition is_digit (c : ascii) : bool :=
  let n := nat_of_ascii c in (48 <=? n)%nat && (n <=? 57)%nat.

Definition is_alnum (c : ascii) : bool :=
  let n := nat_of_ascii c in
  is_digit c || ((65 <=? n)%nat && (n <=? 90)%nat) || ((97 <=? n)%nat && (n <=? 122)%nat).

Fixpoint all_chars (ok : ascii → bool) (s : string) : bool :=
  match s with
  | EmptyString => true
  | String c rest => ok c && all_chars ok rest
  end.

Fixpoint digits_value (acc : nat) (s : string) : nat :=
  match s with
  | EmptyString => acc
  | String c rest => digits_value (10 * acc + (nat_of_ascii c - 48)) rest
  end.

(** A decimal numeral without sign: its value. *)
Definition decimal (s : string) : option nat :=
  if negb (is_empty_string s) && all_chars is_digit s
  then Some (digits_value 0 s) else None.

(** The engine, on decimal numerals of at most 15 digits and the doubles
    that are integers; [NaN] elsewhere. *)
Definition string_to_number (s : string) : number :=
  if is_empty_string s then num_zero
  else match decimal s with
       | Some n =>
           if (String.length s <=? 15)%nat
           then binary_normalize 53 1024 (Z.of_nat n) 0 false
           else NaN
       | None => NaN
       end.

Definition number_to_string (n : number) : string :=
  match n with
  | S754_zero _ => "0"
  | S754_nan => "NaN"
  | S754_infinity false => "Infinity"
  | S754_infinity true => "-Infinity"
  | S754_finite sign m e =>
      let z := (if (0 <=? e)%Z then Z.pos m * 2 ^ e else Z.pos m / 2 ^ (- e))%Z in
      if sign then "-" +:+ pretty z else pretty z
  end.

Definition quote : string := String (ascii_of_nat 34) EmptyString.

(** A JSON text for the universe: properties in key order, [undefined]
    properties left out, [undefined] elements and [NaN] as [null]. *)
Fixpoint json_value (v : value) : string :=
  match v with
  | VUndefined | VNull | VNum S754_nan | VNum (S754_infinity _) => "null"
  | VBool true => "true"
  | VBool false => "false"
  | VNum n => number_to_string n
  | VStr s => quote +:+ s +:+ quote
  | VArr elems => "[" +:+ String.concat "," (List.map json_value elems) +:+ "]"
  end.

Definition json_property (kv : string * value) : list string :=
  match kv with
  | (_, VUndefined) => []
  | (k, v) => [quote +:+ k +:+ quote +:+ ":" +:+ json_value v]
  end.

Definition json_stringify (x : any) : string :=
  match x with
  | AVal v => json_value v
  | AObj o => "{" +:+ String.concat "," (concat (List.map json_property (map_to_list o))) +:+ "}"
  end.

(** The project of the examples, in memory and as its storage row. *)
Definition project : obj :=
  <["id" := VStr "ABCDEFGHIJKL"]> (<["name" := VStr "Shop"]>
  (<["active" := VBool true]> (<["public" := VBool false]>
  (<["origins" := VArr [VStr "example.com"; VStr "*.example.org"]]>
  (<["ipBlacklist" := VArr [VStr "10.0.0.1"; VStr "192.168.0.0/16"]]> ∅))))).

Definition row : obj :=
  <["id" := VStr "ABCDEFGHIJKL"]> (<["name" := VStr "Shop"]>
  (<["active" := VNum num_one]> (<["public" := VNum num_zero]>
  (<["origins" := VStr "example.com,*.example.org"]>
  (<["ipBlacklist" := VStr "10.0.0.1,192.168.0.0/16"]> ∅))))).

(** A parser that knows the documents of the examples: it answers the
    document a text is the serialisation of, and [SyntaxError] elsewhere. *)
Definition documents : list any :=
  [AObj project; AObj row; AObj ∅; AVal VNull; AVal (VBool true); AVal (VBool false)].

Definition json_parse (text : string) : option any :=
  List.find (fun doc => String.eqb (json_stringify doc) text) documents.

#[export] Instance engine : Engine := {|
  StringToNumber := string_to_number;
  NumberToString := number_to_string;
  JSON_stringify := json_stringify;
  JSON_parse := json_parse;
|}.

(** Node's IPv4 syntax: four decimal octets, no leading zeros. *)
Definition octet (s : string) : bool :=
  match decimal s with
  | Some n =>
      (n <=? 255)%nat && (String.length s <=? 3)%nat
      && (String.eqb s "0" || negb (String.prefix "0" s))
  | None => false
  end.

Definition is_ipv4 (s : string) : bool :=
  match split_on "."%char s with
  | [a; b; c; d] => octet a && octet b && octet c && octet d
  | _ => false
  end.

(** [net.isIP] on IPv4 text (no IPv6 text occurs in the examples). *)
#[export] Instance net : Net := {|
  net_isIP := fun s => if is_ipv4 s then 4%Z else 0%Z;
|}.

(** Modelled from the spec: [IP_REGEX], which the spec calls a permissive
    textual IP-range pattern, read as an IPv4 address with a prefix length
    of at most 32. *)
Definition ip_range (s : string) : bool :=
  match split_on "/"%char s with
  | [addr; len] =>
      is_ipv4 addr
      && match decimal len with Some n => (n <=? 32)%nat | None => false end
  | _ => false
  end.

(** Modelled from the spec: [ORIGINS_REGEX], which the spec calls a
    permissive hostname/origin pattern, read as a non-empty run of letters,
    digits, dots, dashes, stars and colons. *)
Definition origin_like (s : string) : bool :=
  negb (is_empty_string s)
  && all_chars (fun c => is_alnum c || existsb (Ascii.eqb c) ["."; "-"; "*"; ":"]%char) s.

(** Modelled from the spec: [isValidPID], identifier well-formedness as
    length 12 over the alphabet 0-9A-Za-z. *)
Definition valid_pid (v : value) : bool :=
  match v with
  | VStr s => (String.length s =? 12)%nat && all_chars is_alnum s
  | _ => false
  end.

#[export] Instance constants : Constants := {|
  isValidPID := valid_pid;
  IP_REGEX_test := ip_range;
  ORIGINS_REGEX_test := origin_like;
  getRedisProjectKey := fun pid => "pid_" +:+ pid;
  redisProjectCacheTimeout := 3600;
|}.

(** A store that holds the one example row; deletes on [customEV] fail
    at time 2, the others succeed at times 1 and 3. *)
Definition store_with (answer : string → result any) : Store := {|
  getProjectsClickhouse := answer;
  clickhouse_query := fun text _ =>
    if String.eqb text queryCustomEvents
    then {| settled_at := 2; outcome := Throw (Error "Code: 241. Memory limit exceeded") |}
    else if String.eqb text queryAnalytics
    then {| settled_at := 1; outcome := Ok tt |}
    else {| settled_at := 3; outcome := Ok tt |};
|}.

(** The store answers the example row for its identifier and
    [undefined] for any other. *)
Definition store : Store :=
  store_with (fun pid =>
    if String.eqb pid "ABCDEFGHIJKL" then Ok (AObj row) else Ok (AVal VUndefined)).

Definition empty_world : World := {| redis := ∅; journal := [] |}.

Definition warm_world : World :=
  {| redis := {[ "pid_ABCDEFGHIJKL" := (json_stringify (AObj project), 3600%Z) ]};
     journal := [] |}.

Definition corrupt_world : World :=
  {| redis := {[ "pid_ABCDEFGHIJKL" := ("{not json", 3600%Z) ]}; journal := [] |}.

(** A project with a [null] list and an empty list. *)
Definition bare_project : obj :=
  <["id" := VStr "ABCDEFGHIJKL"]> (<["name" := VStr "Shop"]>
  (<["active" := VBool true]> (<["public" := VBool false]>
  (<["origins" := VNull]> (<["ipBlacklist" := VArr []]> ∅))))).

(** A row that is not in storage shape: a string and an array for the
    flags, a boolean and an array for the joined lists. *)
Definition malformed_row : obj :=
  <["id" := VStr "ABCDEFGHIJKL"]>
  (<["active" := VStr "no"]> (<["public" := VArr []]>
  (<["origins" := VBool true]> (<["ipBlacklist" := VArr [VNull]]> ∅)))).

(** What the translator makes of a row that is not there. *)
Definition project_of_nothing : obj :=
  <["active" := VBool false]> (<["public" := VBool false]>
  (<["origins" := VArr [VStr ""]]> (<["ipBlacklist" := VArr [VStr ""]]> ∅))).

Definition letters (c : ascii) (n : nat) : string :=
  string_of_list_ascii (repeat c n).

(** A DTO for an update, by its name, origins and blacklist. *)
Definition dto (name : string) (origins ips : list string) : obj :=
  <["id" := VStr "ABCDEFGHIJKL"]> (<["name" := VStr name]>
  (<["origins" := VArr (List.map VStr origins)]>
  (<["ipBlacklist" := VArr (List.map VStr ips)]> ∅))).

(** 29 entries of 8 characters and 4 of 9: 300 characters once joined. *)
Definition ips_300 : list string := repeat "10.0.0.1" 29 ++ repeat "10.0.0.10" 4.

(** 28 entries of 8 characters and 5 of 9: 301 characters once joined. *)
Definition ips_301 : list string := repeat "10.0.0.1" 28 ++ repeat "10.0.0.10" 5.


(** A cache client that works, and one whose connection is closed. *)
Definition redis_up : RedisClient := {| redis_del_rejection := fun _ => None |}.

Definition redis_down : RedisClient :=
  {| redis_del_rejection := fun _ => Some (Error "Connection is closed.") |}.

(** A store without any project. *)
Definition empty_store : Store := store_with (fun _ => Ok (AVal VUndefined)).

(** A project whose identifier is a number, and one without identifier. *)
Definition numbered_project : obj := <["id" := VNum num_one]> project.

Definition anonymous_project : obj := delete "id" project.

(** A warm cache with a second entry. *)
Definition busy_world : World :=
  {| redis := <["pid_MNOPQRSTUVWX" := ("{}", 60%Z)]> (redis warm_world);
     journal := [] |}.

(** A count of symbols for strings with marks: every code point except
    combining marks, variation selectors and joiners. *)
Definition symbol_count (s : string) : nat :=
  length (List.filter
            (fun cp => (65536 <=? cp)%N || negb (is_unicode_mark cp))
            (code_points s)).

#[export] Instance lodash : Lodash := {|
  unicodeSize := symbol_count;
|}.

(** The no-break space U+00A0 and the Cyrillic letter U+044F, in UTF-8. *)
Definition nbsp : string :=
  String (ascii_of_nat 194) (String (ascii_of_nat 160) EmptyString).

Definition ya : string :=
  String (ascii_of_nat 209) (String (ascii_of_nat 143) EmptyString).

(** [n] copies of a string. *)
Fixpoint times (n : nat) (s : string) : string :=
  match n with
  | O => EmptyString
  | S m => s +:+ times m s
  end.

End Fixture.

(* ================================================================== *)
(** ** Objects and strings: basic facts *)
(* ================================================================== *)

Lemma get_set_eq (o : obj) k v : get (set o k v) k = v.
Proof. unfold get, set. by rewrite lookup_insert_eq. Qed.

Lemma get_set_ne (o : obj) k k' v : k ≠ k' → get (set o k v) k' = get o k'.
Proof. intros Hne. unfold get, set. by rewrite lookup_insert_ne. Qed.

Lemma get_lookup (o : obj) k v : o !! k = Some v → get o k = v.
Proof. intros Hk. unfold get. by rewrite Hk. Qed.

Lemma split_on_cons sep s : ∃ piece pieces, split_on sep s = piece :: pieces.
Proof.
  induction s as [|c rest [piece [pieces IH]]]; simpl; [by eauto|].
  destruct (Ascii.eqb c sep); [by eauto|]. rewrite IH. by eauto.
Qed.

Lemma split_on_lacks sep s : lacks sep s = true → split_on sep s = [s].
Proof.
  induction s as [|c rest IH]; simpl; [done|].
  intros [Hc Hrest]%andb_prop. apply negb_true_iff in Hc. rewrite Hc.
  by rewrite (IH Hrest).
Qed.

Lemma split_on_app sep s t :
  lacks sep s = true →
  split_on sep (s +:+ String sep t) = s :: split_on sep t.
Proof.
  induction s as [|c rest IH]; simpl.
  - intros _. by rewrite Ascii.eqb_refl.
  - intros [Hc Hrest]%andb_prop. apply negb_true_iff in Hc. rewrite Hc.
    by rewrite (IH Hrest).
Qed.

(** Splitting a comma-joined list gives the list back when it is not
    empty and no entry holds a comma. *)
Lemma split_on_concat (l : list string) :
  l ≠ [] → forallb (lacks comma) l = true →
  split_on comma (String.concat "," l) = l.
Proof.
  induction l as [|s rest IH]; [done|]. intros _ [Hs Hrest]%andb_prop.
  destruct rest as [|t rest'].
  - simpl. by apply split_on_lacks.
  - change (String.concat "," (s :: t :: rest'))
      with (s +:+ String comma (String.concat "," (t :: rest'))).
    rewrite split_on_app by done. f_equal. by apply IH.
Qed.

Lemma join_elem_strings `{Engine} (l : list string) :
  List.map (join_elem ToString) (List.map VStr l) = l.
Proof. induction l as [|s rest IH]; simpl; [done|]. by rewrite IH. Qed.

Lemma _join_strings `{Engine} (l : list string) :
  _join (VArr (List.map VStr l)) "," = String.concat "," l.
Proof. simpl. by rewrite join_elem_strings. Qed.

Lemma Boolean_Number_bool `{Engine} (b : bool) :
  Boolean (VNum (Number (VBool b))) = b.
Proof. by destruct b. Qed.

(* ================================================================== *)
(** ** The format translator *)
(* ================================================================== *)

Section Translator.
Context `{Engine}.

Ltac get_set :=
  repeat first
    [ rewrite get_set_eq
    | rewrite get_set_ne by discriminate ].

(** [formatToClickhouse] with every field read from the argument. *)
Lemma formatToClickhouse_unfold (x : any) :
  formatToClickhouse x =
  let o := spread x in
  let o2 := set (set o "active" (VNum (Number (get o "active"))))
                "public" (VNum (Number (get o "public"))) in
  let o3 := if _isNull (get o "origins") then o2
            else set o2 "origins" (joined (get o "origins")) in
  if _isNull (get o "ipBlacklist") then o3
  else set o3 "ipBlacklist" (joined (get o "ipBlacklist")).
Proof.
  unfold formatToClickhouse, joined. cbv zeta. get_set.
  destruct (_isNull (get (spread x) "origins")); simpl; get_set;
    destruct (_isNull (get (spread x) "ipBlacklist")); simpl; done.
Qed.

(** [formatFromClickhouse] with every field read from the argument. *)
Lemma formatFromClickhouse_unfold (x : any) :
  formatFromClickhouse x =
  let o := spread x in
  set (set (set (set o "active" (VBool (Boolean (get o "active"))))
                "public" (VBool (Boolean (get o "public"))))
           "origins" (unjoined (get o "origins")))
      "ipBlacklist" (unjoined (get o "ipBlacklist")).
Proof. unfold formatFromClickhouse, unjoined. cbv zeta. by get_set. Qed.

Lemma is_string_list_unjoined (v : value) : is_string_list (unjoined v) = true.
Proof.
  unfold unjoined. destruct (_isNull v); [done|]. simpl.
  induction (_split v comma) as [|s l IH]; simpl; done.
Qed.

Lemma joined_is_string (v : value) : ∃ s, joined v = VStr s.
Proof. unfold joined. destruct v; simpl; eauto. Qed.

(** A row in storage shape: each field of [formatToClickhouse]'s result. *)
Lemma formatToClickhouse_fields (x : any) :
  let q := formatToClickhouse x in
  q !! "active" = Some (VNum (Number (get (spread x) "active")))
  ∧ q !! "public" = Some (VNum (Number (get (spread x) "public")))
  ∧ (q !! "origins" = Some VNull ∨ ∃ s, q !! "origins" = Some (VStr s))
  ∧ (q !! "ipBlacklist" = Some VNull ∨ ∃ s, q !! "ipBlacklist" = Some (VStr s)).
Proof.
  cbv zeta. rewrite formatToClickhouse_unfold. cbv zeta.
  set (o := spread x). unfold set.
  assert (Hnull : ∀ k, _isNull (get o k) = true → o !! k = Some VNull).
  { intros k. unfold get. destruct (o !! k) as [[]|]; simpl; done. }
  destruct (joined_is_string (get o "origins")) as [so Hso].
  destruct (joined_is_string (get o "ipBlacklist")) as [si Hsi].
  rewrite Hso, Hsi.
  destruct (_isNull (get o "origins")) eqn:Ho;
    destruct (_isNull (get o "ipBlacklist")) eqn:Hi;
    repeat split; simplify_map_eq; eauto.
Qed.

(** An object already in storage shape is left as it is. *)
Lemma formatToClickhouse_fixed (q : obj) n m :
  q !! "active" = Some (VNum n) → q !! "public" = Some (VNum m) →
  (q !! "origins" = Some VNull ∨ ∃ s, q !! "origins" = Some (VStr s)) →
  (q !! "ipBlacklist" = Some VNull ∨ ∃ s, q !! "ipBlacklist" = Some (VStr s)) →
  formatToClickhouse (AObj q) = q.
Proof.
  intros Ha Hp Ho Hi. rewrite formatToClickhouse_unfold. simpl spread. cbv zeta.
  rewrite (get_lookup _ _ _ Ha), (get_lookup _ _ _ Hp). simpl Number.
  unfold set. rewrite (insert_id q "active") by done.
  rewrite (insert_id q "public") by done.
  destruct Ho as [Ho|[s Ho]], Hi as [Hi|[t Hi]];
    rewrite (get_lookup _ _ _ Ho), (get_lookup _ _ _ Hi);
    unfold joined; simpl;
    rewrite ?(insert_id q "origins") by done;
    rewrite ?(insert_id q "ipBlacklist") by done; done.
Qed.

Lemma not_list_key k :
  k ∉ list_keys →
  "active" ≠ k ∧ "public" ≠ k ∧ "origins" ≠ k ∧ "ipBlacklist" ≠ k.
Proof. unfold list_keys. rewrite !not_elem_of_cons. naive_solver. Qed.

Lemma formatToClickhouse_other (x : any) k :
  k ∉ list_keys → formatToClickhouse x !! k = spread x !! k.
Proof.
  intros (? & ? & ? & ?)%not_list_key. rewrite formatToClickhouse_unfold.
  cbv zeta. unfold set.
  destruct (_isNull (get (spread x) "origins")),
    (_isNull (get (spread x) "ipBlacklist")); by simplify_map_eq.
Qed.

Lemma formatToClickhouse_flag (x : any) k :
  k = "active" ∨ k = "public" →
  get (formatToClickhouse x) k = VNum (Number (get (spread x) k)).
Proof.
  destruct (formatToClickhouse_fields x) as (Ha & Hp & _).
  intros [-> | ->]; by apply get_lookup.
Qed.

Lemma formatToClickhouse_list (x : any) k :
  k = "origins" ∨ k = "ipBlacklist" →
  get (formatToClickhouse x) k =
  if _isNull (get (spread x) k) then VNull else joined (get (spread x) k).
Proof.
  assert (Hnull : ∀ k, _isNull (get (spread x) k) = true →
                       spread x !! k = Some VNull).
  { intros k'. unfold get. destruct (spread x !! k') as [[]|]; simpl; done. }
  rewrite formatToClickhouse_unfold. cbv zeta. unfold get at 1, set.
  intros [-> | ->];
    destruct (_isNull (get (spread x) "origins")) eqn:Ho;
    destruct (_isNull (get (spread x) "ipBlacklist")) eqn:Hi;
    simplify_map_eq; rewrite ?Hnull; done.
Qed.

Lemma formatFromClickhouse_other (x : any) k :
  k ∉ list_keys → formatFromClickhouse x !! k = spread x !! k.
Proof.
  intros (? & ? & ? & ?)%not_list_key. rewrite formatFromClickhouse_unfold.
  cbv zeta. unfold set. by simplify_map_eq.
Qed.

Lemma formatFromClickhouse_flag (x : any) k :
  k = "active" ∨ k = "public" →
  formatFromClickhouse x !! k = Some (VBool (Boolean (get (spread x) k))).
Proof.
  rewrite formatFromClickhouse_unfold. cbv zeta. unfold set.
  intros [-> | ->]; by simplify_map_eq.
Qed.

Lemma formatFromClickhouse_list (x : any) k :
  k = "origins" ∨ k = "ipBlacklist" →
  formatFromClickhouse x !! k = Some (unjoined (get (spread x) k)).
Proof.
  rewrite formatFromClickhouse_unfold. cbv zeta. unfold set.
  intros [-> | ->]; by simplify_map_eq.
Qed.

(** A translated row always has its four fields: it is never empty. *)
Lemma formatFromClickhouse_not_empty (x : any) :
  _isEmpty (AObj (formatFromClickhouse x)) = false.
Proof.
  simpl. apply bool_decide_eq_false. intros Hdom.
  assert (Hin : "active" ∈ dom (formatFromClickhouse x)).
  { apply elem_of_dom. rewrite formatFromClickhouse_flag by auto. by eauto. }
  rewrite Hdom in Hin. set_solver.
Qed.

Lemma unjoined_joined_strings (l : list string) :
  l ≠ [] → forallb (lacks comma) l = true →
  unjoined (joined (VArr (List.map VStr l))) = VArr (List.map VStr l).
Proof.
  intros Hne Hl. unfold joined. simpl _isString. cbv iota.
  rewrite _join_strings. unfold unjoined, _split. simpl.
  by rewrite split_on_concat.
Qed.

(** C10: [formatToClickhouse] is idempotent.  For every input [p], applying
    it to its own result changes nothing: the result holds numbers in
    [active] and [public] and [null] or a string in [origins] and
    [ipBlacklist]; a numeric flag and an already joined (string) list pass
    through a further application unchanged. *)
Theorem formatToClickhouse_idempotent (p : any) :
  let q := formatToClickhouse p in
  formatToClickhouse (AObj q) = q
  ∧ is_num (get q "active") = true ∧ is_num (get q "public") = true
  ∧ is_joined (get q "origins") = true ∧ is_joined (get q "ipBlacklist") = true
  ∧ (∀ (o : obj) k n, k ∈ ["active"; "public"] →
       get (formatToClickhouse (AObj (set o k (VNum n)))) k = VNum n)
  ∧ (∀ (o : obj) k s, k ∈ ["origins"; "ipBlacklist"] →
       get (formatToClickhouse (AObj (set o k (VStr s)))) k = VStr s).
Proof.
  cbv zeta. destruct (formatToClickhouse_fields p) as (Ha & Hp & Ho & Hi).
  cbv zeta in *. split; [by eapply formatToClickhouse_fixed|].
  rewrite (get_lookup _ _ _ Ha), (get_lookup _ _ _ Hp).
  repeat split; try done.
  - destruct Ho as [Ho|[s Ho]]; by rewrite (get_lookup _ _ _ Ho).
  - destruct Hi as [Hi|[s Hi]]; by rewrite (get_lookup _ _ _ Hi).
  - intros o k n Hk. rewrite formatToClickhouse_flag by set_solver.
    simpl spread. by rewrite get_set_eq.
  - intros o k s Hk. rewrite formatToClickhouse_list by set_solver.
    simpl spread. by rewrite get_set_eq.
Qed.

(** C1, as the code has it: the round trip
    [formatFromClickhouse (formatToClickhouse p) = p] holds for every
    project whose [active] and [public] are booleans and whose [origins]
    and [ipBlacklist] are non-empty lists of strings that hold no comma. *)
Theorem formatFromClickhouse_formatToClickhouse
    (p : obj) (a b : bool) (os ips : list string) :
  p !! "active" = Some (VBool a) →
  p !! "public" = Some (VBool b) →
  p !! "origins" = Some (VArr (List.map VStr os)) →
  p !! "ipBlacklist" = Some (VArr (List.map VStr ips)) →
  os ≠ [] → forallb (lacks comma) os = true →
  ips ≠ [] → forallb (lacks comma) ips = true →
  formatFromClickhouse (AObj (formatToClickhouse (AObj p))) = p.
Proof.
  intros Ha Hb Ho Hi Hos Hcos Hips Hcips.
  apply map_eq. intros k.
  destruct (decide (k ∈ list_keys)) as [Hk|Hk].
  - unfold list_keys in Hk. rewrite !elem_of_cons, elem_of_nil in Hk.
    assert (Hflag : ∀ k', k' = "active" ∨ k' = "public" → ∀ c,
              p !! k' = Some (VBool c) →
              formatFromClickhouse (AObj (formatToClickhouse (AObj p))) !! k'
              = Some (VBool c)).
    { intros k' Hk' c Hc. rewrite formatFromClickhouse_flag by done.
      simpl spread. rewrite formatToClickhouse_flag by done. simpl spread.
      rewrite (get_lookup _ _ _ Hc). by rewrite Boolean_Number_bool. }
    assert (Hlist : ∀ k', k' = "origins" ∨ k' = "ipBlacklist" → ∀ l,
              p !! k' = Some (VArr (List.map VStr l)) →
              l ≠ [] → forallb (lacks comma) l = true →
              formatFromClickhouse (AObj (formatToClickhouse (AObj p))) !! k'
              = Some (VArr (List.map VStr l))).
    { intros k' Hk' l Hl Hne Hc. rewrite formatFromClickhouse_list by done.
      simpl spread. rewrite formatToClickhouse_list by done. simpl spread.
      rewrite (get_lookup _ _ _ Hl). simpl _isNull. cbv iota.
      by rewrite unjoined_joined_strings. }
    destruct Hk as [-> | [-> | [-> | [-> | []]]]].
    + rewrite Ha. by apply Hflag; auto.
    + rewrite Hb. by apply Hflag; auto.
    + rewrite Ho. by apply Hlist; auto.
    + rewrite Hi. by apply Hlist; auto.
  - rewrite formatFromClickhouse_other by done. simpl spread.
    by rewrite formatToClickhouse_other.
Qed.

(** C8, as the code has it: [formatFromClickhouse] has no failure mode.
    For every argument, a well-formed row or not, it returns an object in
    the shape of a Project: [active] and [public] are the truthiness of the
    row's fields, [origins] and [ipBlacklist] are the empty list for [null]
    and otherwise the comma-split of the field's string conversion, and
    every other property is copied; so the result is never empty. *)
Theorem formatFromClickhouse_total (row : any) :
  let project := formatFromClickhouse row in
  is_Project project = true
  ∧ get project "active" = VBool (Boolean (get (spread row) "active"))
  ∧ get project "public" = VBool (Boolean (get (spread row) "public"))
  ∧ get project "origins" = unjoined (get (spread row) "origins")
  ∧ get project "ipBlacklist" = unjoined (get (spread row) "ipBlacklist")
  ∧ (∀ k, k ∉ list_keys → project !! k = spread row !! k)
  ∧ _isEmpty (AObj project) = false.
Proof.
  cbv zeta.
  assert (Ha := formatFromClickhouse_flag row "active" (or_introl eq_refl)).
  assert (Hp := formatFromClickhouse_flag row "public" (or_intror eq_refl)).
  assert (Ho := formatFromClickhouse_list row "origins" (or_introl eq_refl)).
  assert (Hi := formatFromClickhouse_list row "ipBlacklist" (or_intror eq_refl)).
  unfold is_Project.
  rewrite (get_lookup _ _ _ Ha), (get_lookup _ _ _ Hp),
    (get_lookup _ _ _ Ho), (get_lookup _ _ _ Hi).
  rewrite !is_string_list_unjoined. repeat split; try done.
  - intros k Hk. by apply formatFromClickhouse_other.
  - apply formatFromClickhouse_not_empty.
Qed.

End Translator.

(* ================================================================== *)
(** ** Visibility and identifier uniqueness *)
(* ================================================================== *)

Section Guards.

(** C2, as the code has it: [allowedToView] returns (with [null]) exactly
    when the project's [public] field is truthy or the viewer identity is a
    non-empty string, and throws [ForbiddenException] otherwise; for a
    boolean [public] field, truthy means [true].  It is a function of its
    two arguments alone: it reads and writes nothing else. *)
Theorem allowedToView_iff (project : obj) (uid : option string) :
  (allowedToView project uid = Ok VNull ↔
     Boolean (get project "public") = true ∨ ∃ s, uid = Some s ∧ s ≠ "")
  ∧ (allowedToView project uid = Ok VNull
     ∨ allowedToView project uid
       = Throw (ForbiddenException "You are not allowed to view this project"))
  ∧ (∀ b, get project "public" = VBool b →
       (allowedToView project uid = Ok VNull ↔
          b = true ∨ ∃ s, uid = Some s ∧ s ≠ "")).
Proof.
  assert (Huid : Boolean (nullable uid) = true ↔ ∃ s, uid = Some s ∧ s ≠ "").
  { destruct uid as [[|c s]|]; simpl; split; try done.
    - intros (s' & [= <-] & Hs'). done.
    - intros _. eexists. split; [reflexivity|done].
    - intros (s' & Hs' & _). discriminate. }
  assert (Hmain : allowedToView project uid = Ok VNull ↔
     Boolean (get project "public") = true ∨ ∃ s, uid = Some s ∧ s ≠ "").
  { rewrite <- Huid. unfold allowedToView.
    destruct (Boolean (get project "public")), (Boolean (nullable uid));
      simpl; split; try done; auto. intros [|]; done. }
  split; [done|]. split.
  - unfold allowedToView.
    destruct (Boolean (get project "public") || Boolean (nullable uid)); auto.
  - intros b Hb. rewrite Hmain, Hb. done.
Qed.

Lemma strict_equal_str_spec (v : value) (s : string) :
  strict_equal_str v s = true ↔ v = VStr s.
Proof.
  destruct v; simpl; try (split; [done|intros [=]]).
  rewrite String.eqb_eq. split; [by intros ->|by intros [= ->]].
Qed.

(** C3, as the code has it: [isPIDUnique] is true exactly when no project
    of the list has the candidate as its [id], and [checkIfIDUnique]
    returns when it is true and throws [BadRequestException] (not a
    conflict) when it is false. *)
Theorem isPIDUnique_checkIfIDUnique (projects : list obj) (pid : string) :
  (isPIDUnique projects pid = true ↔
     ∀ p, p ∈ projects → get p "id" ≠ VStr pid)
  ∧ checkIfIDUnique projects pid
    = if isPIDUnique projects pid then Ok tt
      else Throw (BadRequestException "Selected project ID is already in use").
Proof.
  split.
  - unfold isPIDUnique, _find.
    induction projects as [|q rest IH]; simpl.
    + split; [|done]. intros _ p Hp. by apply elem_of_nil in Hp.
    + destruct (strict_equal_str (get q "id") pid) eqn:Hq; simpl.
      * split; [done|]. intros Hall. exfalso.
        apply (Hall q); [by left|]. by apply strict_equal_str_spec.
      * rewrite IH. split.
        -- intros Hall p [-> | Hp]%elem_of_cons; [|by apply Hall].
           intros Heq%strict_equal_str_spec. congruence.
        -- intros Hall p Hp. apply Hall. by right.
  - unfold checkIfIDUnique. by destruct (isPIDUnique projects pid).
Qed.

End Guards.

(* ================================================================== *)
(** ** The cached lookup *)
(* ================================================================== *)

Section Repository.
Context `{Engine} `{Constants} `{Store}.

(** C4, on the code: on a cache miss (no payload or an empty one under the
    project key) [getRedisProject] asks the store, and whatever row the
    store resolves to, found or not, it translates it, writes the
    serialised translation into the cache under the project key with the
    fixed expiry and returns it: the bad-identifier branch is never taken.
    Only an error thrown by the store query itself surfaces, and then
    nothing is written. *)
Theorem getRedisProject_miss (w : World) (pid : string) :
  let key := getRedisProjectKey pid in
  (redis w !! key = None ∨ ∃ ttl, redis w !! key = Some (EmptyString, ttl)) →
  getRedisProject pid w =
  match getProjectsClickhouse pid with
  | Ok row =>
      let project := AObj (formatFromClickhouse row) in
      (Ok project,
       {| redis := <[key := (JSON_stringify project, redisProjectCacheTimeout)]> (redis w);
          journal := journal w ++
            [RedisGet key; SelectProject pid;
             RedisSet key (JSON_stringify project) "EX" redisProjectCacheTimeout] |})
  | Throw e =>
      (Throw e,
       {| redis := redis w;
          journal := journal w ++ [RedisGet key; SelectProject pid] |})
  end.
Proof.
  cbv zeta. intros Hmiss.
  unfold getRedisProject, bind, redis_get, select_project, record.
  assert (Hempty : _isEmpty (AVal match redis w !! getRedisProjectKey pid with
                                  | Some (payload, _) => VStr payload
                                  | None => VNull
                                  end) = true).
  { destruct Hmiss as [-> | [ttl ->]]; done. }
  rewrite Hempty. cbv beta iota.
  destruct (getProjectsClickhouse pid) as [row|e]; cbv beta iota zeta.
  - rewrite formatFromClickhouse_not_empty.
    unfold redis_set, ret. simpl. by rewrite <- !app_assoc.
  - simpl. by rewrite <- app_assoc.
Qed.

(** C5: on a cache hit (a non-empty payload under the project key)
    [getRedisProject] returns what the payload deserialises to, or throws
    [InternalServerErrorException] when it does not deserialise; either
    way the only effect is the cache read: no store query, no cache
    write. *)
Theorem getRedisProject_hit (w : World) (pid payload : string) (ttl : Z) :
  redis w !! getRedisProjectKey pid = Some (payload, ttl) →
  payload ≠ EmptyString →
  getRedisProject pid w =
  (match JSON_parse payload with
   | Some project => Ok project
   | None => Throw (InternalServerErrorException "Error while processing project")
   end,
   {| redis := redis w;
      journal := journal w ++ [RedisGet (getRedisProjectKey pid)] |}).
Proof.
  intros Hhit Hpayload.
  unfold getRedisProject, bind, redis_get, record. rewrite Hhit.
  destruct payload as [|c rest]; [done|]. simpl.
  by destruct (JSON_parse (String c rest)).
Qed.

End Repository.

(* ================================================================== *)
(** ** The range delete *)
(* ================================================================== *)

Section RangeDelete.
Context `{Store}.

Lemma first_rejection_None (ps : list settlement) :
  first_rejection ps = None ↔ Forall (fun p => outcome p = Ok tt) ps.
Proof.
  induction ps as [|p rest IH]; simpl; [by split|].
  destruct (outcome p) as [[]|e] eqn:Hp.
  - rewrite IH. split; [by constructor|by inversion 1].
  - split.
    + by destruct (first_rejection rest) as [[t' e']|];
        [destruct (settled_at p <=? t')%nat|].
    + inversion 1; congruence.
Qed.

Lemma first_rejection_Some (ps : list settlement) t e :
  first_rejection ps = Some (t, e) →
  Exists (fun p => outcome p = Throw e) ps.
Proof.
  revert t e. induction ps as [|p rest IH]; simpl; [done|]. intros t e.
  destruct (outcome p) as [[]|e0] eqn:Hp.
  - intros Hrest. right. by eapply IH.
  - destruct (first_rejection rest) as [[t' e']|] eqn:Hrest.
    + destruct (settled_at p <=? t')%nat; intros [= <- <-].
      * by left.
      * right. by eapply IH.
    + intros [= <- <-]. by left.
Qed.

(** C9: [removeDataFromClickhouse] issues exactly three commands, one
    delete per analytics table ([analytics], [customEV], [performance]) in
    that order, each with the same fixed text scoped to
    [pid = {pid} AND created BETWEEN {from} AND {to}] and the three values
    as bound parameters (the texts do not depend on the arguments).  It
    succeeds exactly when all three commands succeed; otherwise it throws
    one error, that of one of the failed commands.  The commands issued are
    the same whatever their outcomes: nothing is rolled back. *)
Theorem removeDataFromClickhouse_spec (pid from to : string) (w : World) :
  let params := {| param_pid := pid; param_from := from; param_to := to |} in
  let texts := [queryAnalytics; queryCustomEvents; queryPerformance] in
  let promises := List.map (fun text => clickhouse_query text params) texts in
  removeDataFromClickhouse pid from to w =
    (Promise_all promises,
     {| redis := redis w;
        journal := journal w ++
          List.map (fun text => ClickhouseQuery text params) texts |})
  ∧ (Promise_all promises = Ok tt ↔
       Forall (fun p => outcome p = Ok tt) promises)
  ∧ (Promise_all promises = Ok tt
     ∨ ∃ e, Promise_all promises = Throw e
            ∧ Exists (fun p => outcome p = Throw e) promises)
  ∧ texts =
    ["ALTER TABLE analytics DELETE WHERE pid = {pid:FixedString(12)} AND created BETWEEN {from:String} AND {to:String}";
     "ALTER TABLE customEV DELETE WHERE pid = {pid:FixedString(12)} AND created BETWEEN {from:String} AND {to:String}";
     "ALTER TABLE performance DELETE WHERE pid = {pid:FixedString(12)} AND created BETWEEN {from:String} AND {to:String}"].
Proof.
  cbv zeta. repeat split.
  - unfold removeDataFromClickhouse, bind, query_promise, await, record.
    simpl. by rewrite <- !app_assoc.
  - unfold Promise_all. intros Hok. apply first_rejection_None.
    by destruct (first_rejection _) as [[t e]|].
  - intros Hall%first_rejection_None. unfold Promise_all. by rewrite Hall.
  - unfold Promise_all.
    destruct (first_rejection _) as [[t e]|] eqn:Hfirst; [|by left].
    right. exists e. split; [done|]. by eapply first_rejection_Some.
Qed.

End RangeDelete.

(* ================================================================== *)
(** ** Strings as UTF-8 text *)
(* ================================================================== *)

Section Utf8.
Context `{Lodash}.

Lemma append_cons (c : ascii) (x y : string) :
  String c x +:+ y = String c (x +:+ y).
Proof. reflexivity. Qed.

Lemma append_empty_r (x : string) : x +:+ EmptyString = x.
Proof.
  induction x as [|c x' IH]; [done|]. by rewrite append_cons, IH.
Qed.

Lemma concat_empty_cons (x : string) (l : list string) :
  String.concat EmptyString (x :: l) = x +:+ String.concat EmptyString l.
Proof.
  destruct l as [|y l']; [|done].
  change (x = x +:+ EmptyString). by rewrite append_empty_r.
Qed.

Lemma append_assoc (a b c : string) : (a +:+ b) +:+ c = a +:+ (b +:+ c).
Proof.
  induction a as [|x a' IH]; [done|]. by rewrite !append_cons, IH.
Qed.

(** Cutting a string into code points loses no byte. *)
Lemma utf8_units_from_bytes (s : string) (cp : N) (bytes : string) (need : nat) :
  String.concat EmptyString (List.map snd (utf8_units_from cp bytes need s))
  = match need with O => EmptyString | S _ => bytes end +:+ s.
Proof.
  revert cp bytes need. induction s as [|c rest IH]; intros cp bytes need.
  - destruct need; [done|].
    change (bytes = bytes +:+ EmptyString). by rewrite append_empty_r.
  - cbn [utf8_units_from].
    destruct need as [|n].
    + cbn [app]. destruct (utf8_lead (N_of_ascii c)) as [first [|k]].
      * cbn [List.map snd]. by rewrite concat_empty_cons, IH.
      * by rewrite IH.
    + destruct (is_continuation (N_of_ascii c)).
      * destruct n as [|n'].
        -- cbn [List.map snd]. rewrite concat_empty_cons, IH.
           by rewrite append_assoc.
        -- cbn [pred]. rewrite IH. by rewrite append_assoc.
      * cbn [app List.map snd]. rewrite concat_empty_cons. f_equal.
        destruct (utf8_lead (N_of_ascii c)) as [first [|k]].
        -- cbn [List.map snd]. by rewrite concat_empty_cons, IH.
        -- by rewrite IH.
Qed.

Lemma utf8_units_bytes (s : string) :
  String.concat EmptyString (List.map snd (utf8_units s)) = s.
Proof. unfold utf8_units. by rewrite utf8_units_from_bytes. Qed.

Lemma ascii_code_point (b : N) :
  (b < 128)%N →
  utf8_lead b = (b, 0%nat) ∧ is_unicode_mark b = false
  ∧ (65536 <=? b)%N = false.
Proof.
  intros Hb. split_and!.
  - unfold utf8_lead. by rewrite (proj2 (N.ltb_lt b 192)) by lia.
  - apply not_true_is_false. unfold is_unicode_mark.
    rewrite !orb_true_iff, !andb_true_iff, !N.eqb_eq, !N.leb_le. lia.
  - apply N.leb_gt. lia.
Qed.

Lemma ascii_code_points (s : string) :
  all_ascii s = true →
  code_points s = List.map N_of_ascii (list_ascii_of_string s)
  ∧ Forall (fun cp => (cp < 128)%N) (code_points s).
Proof.
  unfold code_points, utf8_units.
  induction s as [|c rest IH]; [by split; [|constructor]|].
  simpl. intros [Hc Hrest]%andb_prop. apply N.ltb_lt in Hc.
  destruct (IH Hrest) as [Heq Hall].
  destruct (ascii_code_point _ Hc) as (-> & _ & _).
  cbn [List.map fst]. split; [by rewrite Heq|by constructor].
Qed.

Lemma ascii_code_points_plain (cps : list N) :
  Forall (fun cp => (cp < 128)%N) cps →
  existsb is_unicode_mark cps = false
  ∧ list_sum (List.map (fun cp => if (65536 <=? cp)%N then 2%nat else 1%nat) cps)
    = length cps.
Proof.
  induction 1 as [|cp rest Hcp _ [IHmark IHsum]]; [done|].
  destruct (ascii_code_point _ Hcp) as (_ & Hmark & Hplane).
  cbn [existsb List.map]. rewrite Hmark, Hplane, IHmark. split; [done|].
  change (S (list_sum (List.map (fun cp => if (65536 <=? cp)%N then 2%nat else 1%nat)
                                rest)) = S (length rest)).
  by rewrite IHsum.
Qed.

(** On text in the ASCII range a character is a byte: [_size] is the
    number of bytes. *)
Lemma _size_all_ascii (s : string) :
  all_ascii s = true → _size (VStr s) = String.length s.
Proof.
  intros Hs. destruct (ascii_code_points s Hs) as [Hcps Hall].
  destruct (ascii_code_points_plain _ Hall) as [Hmark Hsum].
  cbn [_size]. unfold stringSize, hasUnicode, utf16_length.
  rewrite Hmark, Hsum, Hcps, length_map. clear.
  induction s as [|c rest IH]; simpl; [done|]. by rewrite IH.
Qed.

End Utf8.

(* ================================================================== *)
(** ** The validator *)
(* ================================================================== *)

Section Validator.
Context `{Engine} `{Lodash} `{Constants} `{Net}.

Lemma for_each_ok {A} (f : A → result unit) (l : list A) :
  Forall (fun x => f x = Ok tt) l → for_each f l = Ok tt.
Proof. induction 1 as [|x rest Hx _ IH]; simpl; [done|]. by rewrite Hx. Qed.

(** The first element that throws decides the outcome. *)
Lemma for_each_first_throw {A} (f : A → result unit) good bad rest e :
  Forall (fun x => f x = Ok tt) good → f bad = Throw e →
  for_each f (good ++ bad :: rest) = Throw e.
Proof.
  intros Hgood Hbad. induction Hgood as [|x good' Hx _ IH]; simpl.
  - by rewrite Hbad.
  - by rewrite Hx.
Qed.

(** The checks before the per-entry ones, once they pass. *)
Lemma validateProject_entries (dto : obj) :
  (_size (get dto "name") ≤ 50)%nat →
  isValidPID (get dto "id") = true →
  (_size (VStr (_join (get dto "origins") ",")) ≤ 300)%nat →
  (_size (VStr (_join (get dto "ipBlacklist") ",")) ≤ 300)%nat →
  validateProject dto false =
  res_bind (for_each check_host (array_like (get dto "origins"))) (fun _ =>
  for_each check_ip (array_like (get dto "ipBlacklist"))).
Proof.
  intros Hname Hpid Ho Hi. unfold validateProject.
  rewrite (proj2 (Nat.ltb_ge _ _) Hname), Hpid.
  by rewrite (proj2 (Nat.ltb_ge _ _) Ho), (proj2 (Nat.ltb_ge _ _) Hi).
Qed.

(** C6: the validator's boundaries.  A name of exactly 50 characters is
    accepted (on creation nothing else is checked) and one of 51 throws
    [UnprocessableEntityException]; on update, with the name and the
    identifier in order, an [origins] list joined to exactly 300 characters
    passes the size check, so that a DTO whose entries are all in order is
    accepted, and one joined to 301 throws [UnprocessableEntityException];
    the joined [ipBlacklist] is bounded at 300 in the same way. *)
Theorem validateProject_boundaries (dto : obj) (name : string) :
  get dto "name" = VStr name →
  let origins_length := _size (VStr (_join (get dto "origins") ",")) in
  let ips_length := _size (VStr (_join (get dto "ipBlacklist") ",")) in
  let entries_pass :=
    for_each check_host (array_like (get dto "origins")) = Ok tt
    ∧ for_each check_ip (array_like (get dto "ipBlacklist")) = Ok tt in
  (_size (VStr name) = 50%nat → validateProject dto true = Ok tt)
  ∧ (_size (VStr name) = 51%nat → ∀ creating,
       validateProject dto creating
       = Throw (UnprocessableEntityException "The project name is too long"))
  ∧ ((_size (VStr name) ≤ 50)%nat → isValidPID (get dto "id") = true →
       (origins_length = 300%nat → (ips_length ≤ 300)%nat → entries_pass →
          validateProject dto false = Ok tt)
       ∧ (origins_length = 301%nat →
            validateProject dto false
            = Throw (UnprocessableEntityException
                       "The list of allowed origins has to be smaller than 300 symbols"))
       ∧ ((origins_length ≤ 300)%nat → ips_length = 300%nat → entries_pass →
            validateProject dto false = Ok tt)
       ∧ ((origins_length ≤ 300)%nat → ips_length = 301%nat →
            validateProject dto false
            = Throw (UnprocessableEntityException
                       "The list of allowed blacklisted IP addresses must be less than 300 characters."))).
Proof.
  intros Hname. cbv zeta.
  assert (Hsize : _size (get dto "name") = _size (VStr name)).
  { by rewrite Hname. }
  split; [|split].
  - intros Hlen. unfold validateProject. by rewrite Hsize, Hlen.
  - intros Hlen creating. unfold validateProject. by rewrite Hsize, Hlen.
  - intros Hlen Hpid. rewrite <- Hsize in Hlen.
    assert (Hpass : (_size (VStr (_join (get dto "origins") ",")) ≤ 300)%nat →
              (_size (VStr (_join (get dto "ipBlacklist") ",")) ≤ 300)%nat →
              for_each check_host (array_like (get dto "origins")) = Ok tt
              ∧ for_each check_ip (array_like (get dto "ipBlacklist")) = Ok tt →
              validateProject dto false = Ok tt).
    { intros Ho Hi [Hhosts Hips].
      rewrite validateProject_entries by done. by rewrite Hhosts, Hips. }
    repeat split.
    + intros Ho Hi. apply Hpass; [lia|done].
    + intros Ho. unfold validateProject.
      by rewrite (proj2 (Nat.ltb_ge _ _) Hlen), Hpid, Ho.
    + intros Ho Hi. apply Hpass; [done|lia].
    + intros Ho Hi. unfold validateProject.
      rewrite (proj2 (Nat.ltb_ge _ _) Hlen), Hpid.
      by rewrite (proj2 (Nat.ltb_ge _ _) Ho), Hi.
Qed.

(** C7: per-entry validation of [ipBlacklist].  On update, with every
    earlier check passing, the validator throws on the first entry, in list
    order, whose trimmed text neither [net.isIP] accepts nor [IP_REGEX]
    matches: a [ConflictException] whose message names that entry. *)
Theorem validateProject_first_bad_ip
    (dto : obj) (good : list value) (bad : value) (rest : list value) :
  (_size (get dto "name") ≤ 50)%nat →
  isValidPID (get dto "id") = true →
  (_size (VStr (_join (get dto "origins") ",")) ≤ 300)%nat →
  (_size (VStr (_join (get dto "ipBlacklist") ",")) ≤ 300)%nat →
  for_each check_host (array_like (get dto "origins")) = Ok tt →
  get dto "ipBlacklist" = VArr (good ++ bad :: rest) →
  Forall (fun ip => net_isIP (_trim ip) ≠ 0%Z ∨ IP_REGEX_test (_trim ip) = true) good →
  net_isIP (_trim bad) = 0%Z →
  IP_REGEX_test (_trim bad) = false →
  validateProject dto false
  = Throw (ConflictException ("IP address " +:+ ToString bad +:+ " is not correct")).
Proof.
  intros Hname Hpid Ho Hi Hhosts Hips Hgood Hnet Hregex.
  rewrite validateProject_entries by done. rewrite Hhosts, Hips. simpl.
  apply for_each_first_throw.
  - eapply Forall_impl; [exact Hgood|]. intros ip Hip. unfold check_ip.
    destruct Hip as [Hip | Hip].
    + apply Z.eqb_neq in Hip. by rewrite Hip.
    + rewrite Hip. by rewrite andb_false_r.
  - unfold check_ip. by rewrite Hnet, Hregex.
Qed.

End Validator.

(* ================================================================== *)
(** ** More on the format translator *)
(* ================================================================== *)

Section TranslatorLaws.
Context `{Engine}.

Lemma concat_split_on (sep : ascii) (s : string) :
  String.concat (char_str sep) (split_on sep s) = s.
Proof.
  induction s as [|c rest IH]; simpl; [done|].
  destruct (split_on_cons sep rest) as (piece & pieces & Hrest).
  rewrite Hrest in *. destruct (Ascii.eqb c sep) eqn:Hc.
  - apply Ascii.eqb_eq in Hc as ->. simpl in *. by rewrite IH.
  - destruct pieces as [|piece' pieces']; simpl in *; by rewrite <- IH.
Qed.

Lemma split_on_pieces_lack (sep : ascii) (s : string) :
  forallb (lacks sep) (split_on sep s) = true.
Proof.
  induction s as [|c rest IH]; simpl; [done|].
  destruct (Ascii.eqb c sep) eqn:Hc; simpl; [done|].
  destruct (split_on sep rest) as [|piece pieces]; simpl in *; by rewrite Hc.
Qed.

Lemma baseToString_strings (l : list string) :
  List.map baseToString (List.map VStr l) = l.
Proof. induction l as [|s rest IH]; simpl; [done|]. by rewrite IH. Qed.

(** Splitting again what a split gave changes nothing. *)
Lemma unjoined_strings (l : list string) :
  l ≠ [] → forallb (lacks comma) l = true →
  unjoined (VArr (List.map VStr l)) = VArr (List.map VStr l).
Proof.
  intros Hne Hl. unfold unjoined, _split. simpl.
  by rewrite baseToString_strings, split_on_concat.
Qed.

Lemma unjoined_not_null (v : value) :
  _isNull v = false →
  ∃ l, unjoined v = VArr (List.map VStr l) ∧ l ≠ []
       ∧ forallb (lacks comma) l = true.
Proof.
  intros Hv. unfold unjoined. rewrite Hv. exists (_split v comma).
  split; [done|]. unfold _split. split; [|apply split_on_pieces_lack].
  by destruct (split_on_cons comma (_toString v)) as (? & ? & ->).
Qed.

Lemma formatToClickhouse_lookup_list (x : any) k :
  k = "origins" ∨ k = "ipBlacklist" →
  _isNull (get (spread x) k) = false →
  formatToClickhouse x !! k = Some (joined (get (spread x) k)).
Proof.
  intros Hk Hnull. rewrite formatToClickhouse_unfold. cbv zeta. unfold set.
  destruct Hk as [-> | ->]; rewrite ?Hnull;
    destruct (_isNull (get (spread x) "origins")),
      (_isNull (get (spread x) "ipBlacklist")); by simplify_map_eq.
Qed.

(** A project in memory shape whose lists are not empty and hold no comma
    is left as it is by [formatFromClickhouse]. *)
Lemma formatFromClickhouse_fixed (p : obj) (a b : bool) (os ips : list string) :
  p !! "active" = Some (VBool a) → p !! "public" = Some (VBool b) →
  p !! "origins" = Some (VArr (List.map VStr os)) →
  p !! "ipBlacklist" = Some (VArr (List.map VStr ips)) →
  os ≠ [] → forallb (lacks comma) os = true →
  ips ≠ [] → forallb (lacks comma) ips = true →
  formatFromClickhouse (AObj p) = p.
Proof.
  intros Ha Hb Ho Hi Hos Hcos Hips Hcips.
  rewrite formatFromClickhouse_unfold. simpl spread. cbv zeta.
  rewrite (get_lookup _ _ _ Ha), (get_lookup _ _ _ Hb),
    (get_lookup _ _ _ Ho), (get_lookup _ _ _ Hi).
  rewrite !unjoined_strings by done. simpl Boolean. unfold set.
  rewrite (insert_id p "active") by done.
  rewrite (insert_id p "public") by done.
  rewrite (insert_id p "origins") by done.
  by rewrite (insert_id p "ipBlacklist").
Qed.

(** X1: the round trip from storage.  A row whose [active] and [public]
    are the numbers 0 or 1 and whose [origins] and [ipBlacklist] are
    strings (any strings, the empty one included) comes back unchanged
    from [formatToClickhouse (formatFromClickhouse row)]. *)
Theorem formatToClickhouse_formatFromClickhouse
    (row : obj) (a b : bool) (os ips : string) :
  row !! "active" = Some (VNum (if a then num_one else num_zero)) →
  row !! "public" = Some (VNum (if b then num_one else num_zero)) →
  row !! "origins" = Some (VStr os) →
  row !! "ipBlacklist" = Some (VStr ips) →
  formatToClickhouse (AObj (formatFromClickhouse (AObj row))) = row.
Proof.
  intros Ha Hb Ho Hi. apply map_eq. intros k.
  assert (Hlist : ∀ k' s, k' = "origins" ∨ k' = "ipBlacklist" →
            row !! k' = Some (VStr s) →
            formatToClickhouse (AObj (formatFromClickhouse (AObj row))) !! k'
            = Some (VStr s)).
  { intros k' s Hk' Hs.
    assert (Hfrom : get (formatFromClickhouse (AObj row)) k'
                    = VArr (List.map VStr (split_on comma s))).
    { apply get_lookup. rewrite formatFromClickhouse_list by done.
      simpl spread. by rewrite (get_lookup _ _ _ Hs). }
    rewrite formatToClickhouse_lookup_list; simpl spread; rewrite ?Hfrom; try done.
    unfold joined. simpl _isString. cbv iota. rewrite _join_strings.
    do 2 f_equal. exact (concat_split_on comma s). }
  assert (Hflag : ∀ k' (c : bool), k' = "active" ∨ k' = "public" →
            row !! k' = Some (VNum (if c then num_one else num_zero)) →
            formatToClickhouse (AObj (formatFromClickhouse (AObj row))) !! k'
            = Some (VNum (if c then num_one else num_zero))).
  { intros k' c Hk' Hc.
    destruct (formatToClickhouse_fields (AObj (formatFromClickhouse (AObj row))))
      as (Hact & Hpub & _). cbv zeta in *. simpl spread in *.
    assert (Hfrom : get (formatFromClickhouse (AObj row)) k'
                    = VBool (Boolean (VNum (if c then num_one else num_zero)))).
    { apply get_lookup. rewrite formatFromClickhouse_flag by done.
      simpl spread. by rewrite (get_lookup _ _ _ Hc). }
    destruct Hk' as [-> | ->]; [rewrite Hact|rewrite Hpub];
      rewrite Hfrom; by destruct c. }
  destruct (decide (k ∈ list_keys)) as [Hk|Hk].
  - unfold list_keys in Hk. rewrite !elem_of_cons, elem_of_nil in Hk.
    destruct Hk as [-> | [-> | [-> | [-> | []]]]].
    + rewrite Ha. by apply Hflag; auto.
    + rewrite Hb. by apply Hflag; auto.
    + rewrite Ho. by apply Hlist; auto.
    + rewrite Hi. by apply Hlist; auto.
  - rewrite formatToClickhouse_other by done. simpl spread.
    by rewrite formatFromClickhouse_other.
Qed.

(** X2: [formatFromClickhouse] returns the empty list for a list field
    exactly when the row holds [null] there; any other content, the empty
    string and a missing field included, gives a list with at least one
    entry, and the empty string gives the list of the empty string. *)
Theorem formatFromClickhouse_empty_list_iff_null (row : any) :
  (get (formatFromClickhouse row) "origins" = VArr []
     ↔ get (spread row) "origins" = VNull)
  ∧ (get (formatFromClickhouse row) "ipBlacklist" = VArr []
     ↔ get (spread row) "ipBlacklist" = VNull)
  ∧ (∀ (o : obj) k, k ∈ ["origins"; "ipBlacklist"] →
       get (formatFromClickhouse (AObj (set o k (VStr "")))) k = VArr [VStr ""]
       ∧ get (formatFromClickhouse (AObj (delete k o))) k = VArr [VStr ""]).
Proof.
  assert (Hun : ∀ v, unjoined v = VArr [] ↔ v = VNull).
  { intros v. split; [|by intros ->].
    destruct (_isNull v) eqn:Hv; [by destruct v|].
    destruct (unjoined_not_null v Hv) as (l & -> & Hne & _).
    destruct l; [done|]. simpl. discriminate. }
  split_and!.
  - rewrite (get_lookup _ _ _ (formatFromClickhouse_list row "origins"
                                  (or_introl eq_refl))). apply Hun.
  - rewrite (get_lookup _ _ _ (formatFromClickhouse_list row "ipBlacklist"
                                  (or_intror eq_refl))). apply Hun.
  - intros o k Hk. rewrite !elem_of_cons, elem_of_nil in Hk.
    assert (Hk' : k = "origins" ∨ k = "ipBlacklist") by naive_solver.
    rewrite !(get_lookup _ _ _ (formatFromClickhouse_list _ k Hk')).
    simpl spread. rewrite get_set_eq. unfold get.
    by rewrite lookup_delete_eq.
Qed.

(** X3: [formatFromClickhouse] is idempotent on rows whose list fields are
    not [null]: translating its own result again changes nothing. *)
Theorem formatFromClickhouse_idempotent (row : any) :
  get (spread row) "origins" ≠ VNull →
  get (spread row) "ipBlacklist" ≠ VNull →
  formatFromClickhouse (AObj (formatFromClickhouse row))
  = formatFromClickhouse row.
Proof.
  intros Ho Hi.
  assert (Hnn : ∀ v, v ≠ VNull → _isNull v = false) by (by intros []).
  destruct (unjoined_not_null _ (Hnn _ Ho)) as (os & Hos & Hos_ne & Hos_c).
  destruct (unjoined_not_null _ (Hnn _ Hi)) as (ips & Hips & Hips_ne & Hips_c).
  apply (formatFromClickhouse_fixed _
           (Boolean (get (spread row) "active"))
           (Boolean (get (spread row) "public")) os ips); try done.
  - apply formatFromClickhouse_flag. by left.
  - apply formatFromClickhouse_flag. by right.
  - rewrite formatFromClickhouse_list by auto. by rewrite Hos.
  - rewrite formatFromClickhouse_list by auto. by rewrite Hips.
Qed.

(** X4: what [formatToClickhouse] makes of missing fields.  A missing
    [active] or [public] is stored as [NaN]; a missing [origins] or
    [ipBlacklist] is stored as the empty string, while a [null] one stays
    [null]; every property other than these four is copied. *)
Theorem formatToClickhouse_missing_fields (o : obj) :
  (∀ k, k ∈ ["active"; "public"] → o !! k = None →
        formatToClickhouse (AObj o) !! k = Some (VNum NaN))
  ∧ (∀ k, k ∈ ["origins"; "ipBlacklist"] → o !! k = None →
          formatToClickhouse (AObj o) !! k = Some (VStr ""))
  ∧ (∀ k, k ∈ ["origins"; "ipBlacklist"] → o !! k = Some VNull →
          formatToClickhouse (AObj o) !! k = Some VNull)
  ∧ (∀ k, k ∉ list_keys → formatToClickhouse (AObj o) !! k = o !! k).
Proof.
  destruct (formatToClickhouse_fields (AObj o)) as (Hact & Hpub & _).
  cbv zeta in *. simpl spread in *. split_and!.
  - intros k Hk Hnone.
    assert (Hget : get o k = VUndefined) by (unfold get; by rewrite Hnone).
    rewrite !elem_of_cons, elem_of_nil in Hk.
    destruct Hk as [-> | [-> | []]]; [rewrite Hact|rewrite Hpub];
      by rewrite Hget.
  - intros k Hk Hnone.
    assert (Hget : get o k = VUndefined) by (unfold get; by rewrite Hnone).
    rewrite !elem_of_cons, elem_of_nil in Hk.
    rewrite formatToClickhouse_lookup_list; simpl spread; rewrite ?Hget;
      try done. naive_solver.
  - intros k Hk Hnull. rewrite !elem_of_cons, elem_of_nil in Hk.
    assert (Hk' : k = "origins" ∨ k = "ipBlacklist") by naive_solver.
    assert (Hget : get o k = VNull) by (by apply get_lookup).
    pose proof (formatToClickhouse_list (AObj o) k Hk') as Hlist.
    simpl spread in Hlist. rewrite Hget in Hlist. simpl in Hlist.
    destruct (formatToClickhouse_fields (AObj o)) as (_ & _ & Ho & Hi).
    cbv zeta in *.
    destruct Hk' as [-> | ->].
    + destruct Ho as [Ho | [s Ho]]; [done|].
      rewrite (get_lookup _ _ _ Ho) in Hlist. discriminate.
    + destruct Hi as [Hi | [s Hi]]; [done|].
      rewrite (get_lookup _ _ _ Hi) in Hlist. discriminate.
  - intros k Hk. by rewrite formatToClickhouse_other.
Qed.

End TranslatorLaws.

(* ================================================================== *)
(** ** More on the validator *)
(* ================================================================== *)

Section ValidatorLaws.
Context `{Engine} `{Lodash} `{Constants} `{Net}.

Lemma check_host_ok (host : value) :
  check_host host = Ok tt ↔ ORIGINS_REGEX_test (_trim host) = true.
Proof.
  unfold check_host. destruct (ORIGINS_REGEX_test (_trim host)); simpl;
    split; done.
Qed.

Lemma check_ip_ok (ip : value) :
  check_ip ip = Ok tt ↔
  net_isIP (_trim ip) ≠ 0%Z ∨ IP_REGEX_test (_trim ip) = true.
Proof.
  unfold check_ip. destruct (Z.eqb_spec (net_isIP (_trim ip)) 0) as [Hz|Hz];
    destruct (IP_REGEX_test (_trim ip)); simpl; split; auto; try done.
  intros [|]; done.
Qed.

Lemma for_each_ok_iff {A} (f : A → result unit) (l : list A) :
  for_each f l = Ok tt ↔ Forall (fun x => f x = Ok tt) l.
Proof.
  split; [|apply for_each_ok].
  induction l as [|x rest IH]; simpl; [by constructor|].
  destruct (f x) as [[]|e] eqn:Hx; simpl; [|done].
  intros Hrest. constructor; [done|by apply IH].
Qed.

Lemma for_each_check_host (hosts : list value) :
  for_each check_host hosts = Ok tt ↔
  Forall (fun host => ORIGINS_REGEX_test (_trim host) = true) hosts.
Proof.
  rewrite for_each_ok_iff. apply Forall_proper; [|done].
  intros host. apply check_host_ok.
Qed.

Lemma for_each_check_ip (ips : list value) :
  for_each check_ip ips = Ok tt ↔
  Forall (fun ip => net_isIP (_trim ip) ≠ 0%Z ∨ IP_REGEX_test (_trim ip) = true) ips.
Proof.
  rewrite for_each_ok_iff. apply Forall_proper; [|done].
  intros ip. apply check_ip_ok.
Qed.

(** When an update is accepted. *)
Lemma validateProject_ok_iff (dto : obj) :
  validateProject dto false = Ok tt ↔
    (_size (get dto "name") ≤ 50)%nat
    ∧ isValidPID (get dto "id") = true
    ∧ (_size (VStr (_join (get dto "origins") ",")) ≤ 300)%nat
    ∧ (_size (VStr (_join (get dto "ipBlacklist") ",")) ≤ 300)%nat
    ∧ Forall (fun host => ORIGINS_REGEX_test (_trim host) = true)
             (array_like (get dto "origins"))
    ∧ Forall (fun ip => net_isIP (_trim ip) ≠ 0%Z ∨ IP_REGEX_test (_trim ip) = true)
             (array_like (get dto "ipBlacklist")).
Proof.
  split.
  - unfold validateProject.
    destruct (Nat.ltb_spec 50 (_size (get dto "name"))) as [|Hname]; [done|].
    destruct (isValidPID (get dto "id")) eqn:Hpid; cbn [negb]; [|done].
    destruct (Nat.ltb_spec 300 (_size (VStr (_join (get dto "origins") ","))))
      as [|Ho]; [done|].
    destruct (Nat.ltb_spec 300 (_size (VStr (_join (get dto "ipBlacklist") ","))))
      as [|Hi]; [done|].
    destruct (for_each check_host _) as [[]|e] eqn:Hhosts; simpl; [|done].
    intros Hips. split_and!; try done.
    + by apply for_each_check_host.
    + by apply for_each_check_ip.
  - intros (Hname & Hpid & Ho & Hi & Hhosts & Hips).
    rewrite validateProject_entries by done.
    rewrite (proj2 (for_each_check_host _) Hhosts). simpl.
    by apply for_each_check_ip.
Qed.

(** X5: on creation only the name is read.  Two DTOs with the same [name]
    get the same verdict from [validateProject(dto, true)], whatever their
    identifiers and lists, and the verdict is acceptance exactly when the
    name has at most 50 characters. *)
Theorem validateProject_creating_name_only (dto dto' : obj) :
  get dto "name" = get dto' "name" →
  validateProject dto true = validateProject dto' true
  ∧ (validateProject dto true = Ok tt ↔ (_size (get dto "name") ≤ 50)%nat).
Proof.
  intros Hname. unfold validateProject. rewrite Hname. split; [done|].
  destruct (Nat.ltb_spec 50 (_size (get dto' "name"))); split; try done; lia.
Qed.

(** X6: an update is accepted exactly when the name has at most 50
    characters, the identifier is valid, each list joined by commas has at
    most 300 characters, every origin matches [ORIGINS_REGEX] after
    trimming, and every blacklist entry, after trimming, is an IP address
    for [net.isIP] or matches [IP_REGEX]. *)
Theorem validateProject_accepts_iff (dto : obj) :
  validateProject dto false = Ok tt ↔
    (_size (get dto "name") ≤ 50)%nat
    ∧ isValidPID (get dto "id") = true
    ∧ (_size (VStr (_join (get dto "origins") ",")) ≤ 300)%nat
    ∧ (_size (VStr (_join (get dto "ipBlacklist") ",")) ≤ 300)%nat
    ∧ Forall (fun host => ORIGINS_REGEX_test (_trim host) = true)
             (array_like (get dto "origins"))
    ∧ Forall (fun ip => net_isIP (_trim ip) ≠ 0%Z ∨ IP_REGEX_test (_trim ip) = true)
             (array_like (get dto "ipBlacklist")).
Proof. apply validateProject_ok_iff. Qed.

(** X7: per-entry validation of [origins].  On update, with the name, the
    identifier and both sizes in order, the validator throws on the first
    origin, in list order, whose trimmed text [ORIGINS_REGEX] does not
    match: a [ConflictException] naming that entry as it was given.  The
    blacklist is not looked at: a bad origin wins over any bad IP entry. *)
Theorem validateProject_first_bad_host
    (dto : obj) (good : list value) (bad : value) (rest : list value) :
  (_size (get dto "name") ≤ 50)%nat →
  isValidPID (get dto "id") = true →
  (_size (VStr (_join (get dto "origins") ",")) ≤ 300)%nat →
  (_size (VStr (_join (get dto "ipBlacklist") ",")) ≤ 300)%nat →
  get dto "origins" = VArr (good ++ bad :: rest) →
  Forall (fun host => ORIGINS_REGEX_test (_trim host) = true) good →
  ORIGINS_REGEX_test (_trim bad) = false →
  validateProject dto false
  = Throw (ConflictException ("Host " +:+ ToString bad +:+ " is not correct")).
Proof.
  intros Hname Hpid Ho Hi Horigins Hgood Hbad.
  rewrite validateProject_entries by done. rewrite Horigins. simpl array_like.
  rewrite (for_each_first_throw check_host good bad rest
             (ConflictException ("Host " +:+ ToString bad +:+ " is not correct"))).
  - done.
  - eapply Forall_impl; [exact Hgood|]. intros host. apply check_host_ok.
  - unfold check_host. by rewrite Hbad.
Qed.

(** X8: lists that are [null] or missing pass.  An update whose name and
    identifier are in order and whose [origins] and [ipBlacklist] are each
    [null] or [undefined] is accepted: nothing is joined and no entry is
    checked. *)
Theorem validateProject_null_lists (dto : obj) :
  (_size (get dto "name") ≤ 50)%nat →
  isValidPID (get dto "id") = true →
  get dto "origins" = VNull ∨ get dto "origins" = VUndefined →
  get dto "ipBlacklist" = VNull ∨ get dto "ipBlacklist" = VUndefined →
  validateProject dto false = Ok tt.
Proof.
  intros Hname Hpid Ho Hi. apply validateProject_ok_iff.
  destruct Ho as [-> | ->], Hi as [-> | ->];
    split_and!; try done; first [ by constructor | vm_compute; lia ].
Qed.

(** X9: the order of the checks.  A name longer than 50 characters is
    reported whatever else is wrong and in either mode; on update an
    invalid identifier is reported before the lists are looked at, a joined
    [origins] longer than 300 before the blacklist, and a joined
    [ipBlacklist] longer than 300 before any entry is checked. *)
Theorem validateProject_error_order (dto : obj) :
  ((50 < _size (get dto "name"))%nat → ∀ creating,
     validateProject dto creating
     = Throw (UnprocessableEntityException "The project name is too long"))
  ∧ ((_size (get dto "name") ≤ 50)%nat →
     (isValidPID (get dto "id") = false →
        validateProject dto false
        = Throw (UnprocessableEntityException
                   "The provided Project ID (pid) is incorrect"))
     ∧ (isValidPID (get dto "id") = true →
        ((300 < _size (VStr (_join (get dto "origins") ",")))%nat →
           validateProject dto false
           = Throw (UnprocessableEntityException
                      "The list of allowed origins has to be smaller than 300 symbols"))
        ∧ ((_size (VStr (_join (get dto "origins") ",")) ≤ 300)%nat →
           (300 < _size (VStr (_join (get dto "ipBlacklist") ",")))%nat →
           validateProject dto false
           = Throw (UnprocessableEntityException
                      "The list of allowed blacklisted IP addresses must be less than 300 characters.")))).
Proof.
  split.
  - intros Hname creating. unfold validateProject.
    by rewrite (proj2 (Nat.ltb_lt _ _) Hname).
  - intros Hname. unfold validateProject.
    rewrite (proj2 (Nat.ltb_ge _ _) Hname). split.
    + by intros ->.
    + intros ->. simpl. split.
      * intros Ho. by rewrite (proj2 (Nat.ltb_lt _ _) Ho).
      * intros Ho Hi. rewrite (proj2 (Nat.ltb_ge _ _) Ho).
        by rewrite (proj2 (Nat.ltb_lt _ _) Hi).
Qed.

(** X10: entries are judged after trimming.  Two updates with the same
    name and identifier, both with joined lists of at most 300 characters,
    whose origins agree entry by entry after trimming and whose blacklist
    entries do too, are both accepted or both rejected. *)
Theorem validateProject_trimmed_entries (dto dto' : obj) :
  get dto "name" = get dto' "name" →
  get dto "id" = get dto' "id" →
  (_size (VStr (_join (get dto "origins") ",")) ≤ 300)%nat →
  (_size (VStr (_join (get dto' "origins") ",")) ≤ 300)%nat →
  (_size (VStr (_join (get dto "ipBlacklist") ",")) ≤ 300)%nat →
  (_size (VStr (_join (get dto' "ipBlacklist") ",")) ≤ 300)%nat →
  List.map _trim (array_like (get dto "origins"))
  = List.map _trim (array_like (get dto' "origins")) →
  List.map _trim (array_like (get dto "ipBlacklist"))
  = List.map _trim (array_like (get dto' "ipBlacklist")) →
  validateProject dto false = Ok tt ↔ validateProject dto' false = Ok tt.
Proof.
  intros Hname Hid Ho Ho' Hi Hi' Hhosts Hips.
  assert (Htrim : ∀ (P : string → Prop) (l : list value),
            Forall (fun v => P (_trim v)) l ↔ Forall P (List.map _trim l)).
  { intros P l. by rewrite Forall_fmap. }
  rewrite !validateProject_ok_iff, <- Hname, <- Hid.
  rewrite (Htrim (fun s => ORIGINS_REGEX_test s = true) (array_like (get dto "origins"))).
  rewrite (Htrim (fun s => ORIGINS_REGEX_test s = true) (array_like (get dto' "origins"))).
  rewrite (Htrim (fun s => net_isIP s ≠ 0%Z ∨ IP_REGEX_test s = true)
             (array_like (get dto "ipBlacklist"))).
  rewrite (Htrim (fun s => net_isIP s ≠ 0%Z ∨ IP_REGEX_test s = true)
             (array_like (get dto' "ipBlacklist"))).
  rewrite Hhosts, Hips. naive_solver.
Qed.

End ValidatorLaws.

(* ================================================================== *)
(** ** More on identifiers *)
(* ================================================================== *)

Section IdentifierLaws.

Lemma isPIDUnique_cons (p : obj) (projects : list obj) (pid : string) :
  isPIDUnique (p :: projects) pid
  = negb (strict_equal_str (get p "id") pid) && isPIDUnique projects pid.
Proof.
  unfold isPIDUnique, _find. simpl.
  by destruct (strict_equal_str (get p "id") pid).
Qed.

(** X11: the uniqueness test distributes over concatenation: an
    identifier is unique in [ps ++ qs] exactly when it is unique in both,
    so the order of the projects does not matter. *)
Theorem isPIDUnique_app (ps qs : list obj) (pid : string) :
  isPIDUnique (ps ++ qs) pid = isPIDUnique ps pid && isPIDUnique qs pid
  ∧ isPIDUnique (ps ++ qs) pid = isPIDUnique (qs ++ ps) pid.
Proof.
  assert (Happ : ∀ xs ys,
            isPIDUnique (xs ++ ys) pid = isPIDUnique xs pid && isPIDUnique ys pid).
  { intros xs ys. induction xs as [|p rest IH]; [done|].
    rewrite <- app_comm_cons, !isPIDUnique_cons, IH. by rewrite andb_assoc. }
  split; [done|]. rewrite !Happ. apply andb_comm.
Qed.

(** X12: once a project carries an identifier, the identifier is taken.
    Wherever a project with [id = pid] stands in the list,
    [checkIfIDUnique] throws for [pid]. *)
Theorem checkIfIDUnique_taken (ps qs : list obj) (p : obj) (pid : string) :
  checkIfIDUnique (ps ++ set p "id" (VStr pid) :: qs) pid
  = Throw (BadRequestException "Selected project ID is already in use").
Proof.
  unfold checkIfIDUnique.
  assert (Htaken : isPIDUnique (ps ++ set p "id" (VStr pid) :: qs) pid = false).
  { induction ps as [|q rest IH]; simpl.
    - rewrite isPIDUnique_cons, get_set_eq. simpl.
      by rewrite String.eqb_refl.
    - rewrite isPIDUnique_cons, IH. apply andb_false_r. }
  by rewrite Htaken.
Qed.

(** X13: only string identifiers collide.  If no project of the list has
    a string as its [id] (it is missing, a number, [null], ...), every
    candidate is unique, even one that spells such a number. *)
Theorem isPIDUnique_non_string_ids (projects : list obj) (pid : string) :
  Forall (fun p => _isString (get p "id") = false) projects →
  isPIDUnique projects pid = true ∧ checkIfIDUnique projects pid = Ok tt.
Proof.
  intros Hids.
  assert (Hunique : isPIDUnique projects pid = true).
  { induction Hids as [|p rest Hp _ IH]; [done|].
    rewrite isPIDUnique_cons, IH. by destruct (get p "id"). }
  split; [done|]. unfold checkIfIDUnique. by rewrite Hunique.
Qed.

(** X14: the identifier alphabet is exactly the ASCII digits and letters,
    each once: 62 characters, no repetition. *)
Theorem LEGAL_PID_CHARACTERS_alphabet :
  String.length LEGAL_PID_CHARACTERS = 62%nat
  ∧ NoDup (list_ascii_of_string LEGAL_PID_CHARACTERS)
  ∧ ∀ c, In c (list_ascii_of_string LEGAL_PID_CHARACTERS)
         ↔ is_digit_or_letter c = true.
Proof.
  split; [done|]. split.
  - apply (bool_decide_unpack _). vm_compute. exact I.
  - intros c.
    assert (Hdec : bool_decide (In c (list_ascii_of_string LEGAL_PID_CHARACTERS))
                   = is_digit_or_letter c).
    { destruct c as [[] [] [] [] [] [] [] []]; vm_compute; reflexivity. }
    rewrite <- Hdec. by rewrite bool_decide_eq_true.
Qed.

End IdentifierLaws.

(* ================================================================== *)
(** ** More on the cached lookup and its teardown *)
(* ================================================================== *)

Section CacheCases.
Context `{Engine} `{Constants} `{Store}.

(** [getRedisProject] by the content of the cache. *)
Lemma getRedisProject_cases (w : World) (pid : string) :
  let key := getRedisProjectKey pid in
  getRedisProject pid w =
  match redis w !! key with
  | Some (String c rest, _) =>
      (match JSON_parse (String c rest) with
       | Some project => Ok project
       | None => Throw (InternalServerErrorException "Error while processing project")
       end,
       {| redis := redis w; journal := journal w ++ [RedisGet key] |})
  | _ =>
      match getProjectsClickhouse pid with
      | Ok row =>
          let project := AObj (formatFromClickhouse row) in
          (Ok project,
           {| redis := <[key := (JSON_stringify project, redisProjectCacheTimeout)]> (redis w);
              journal := journal w ++
                [RedisGet key; SelectProject pid;
                 RedisSet key (JSON_stringify project) "EX" redisProjectCacheTimeout] |})
      | Throw e =>
          (Throw e,
           {| redis := redis w;
              journal := journal w ++ [RedisGet key; SelectProject pid] |})
      end
  end.
Proof.
  cbv zeta. unfold getRedisProject, bind, redis_get, select_project, record.
  destruct (redis w !! getRedisProjectKey pid) as [[[|c rest] ttl]|] eqn:Hkey.
  1,3: (simpl _isEmpty; cbv beta iota;
        destruct (getProjectsClickhouse pid) as [row|e]; cbv beta iota zeta;
        [ rewrite formatFromClickhouse_not_empty; unfold redis_set, ret; simpl;
          by rewrite <- !app_assoc
        | simpl; by rewrite <- app_assoc ]).
  simpl. by destruct (JSON_parse (String c rest)).
Qed.

End CacheCases.

Section StaleCache.
Context `{Engine} `{Constants}.

(** X17: a cached project is served without asking the store.  With a
    non-empty payload under the project key, [getRedisProject] gives the
    same outcome and the same world over any two stores, whatever they
    would answer. *)
Theorem getRedisProject_hit_any_store
    (store other : Store) (w : World) (pid payload : string) (ttl : Z) :
  redis w !! getRedisProjectKey pid = Some (payload, ttl) →
  payload ≠ EmptyString →
  @getRedisProject _ _ store pid w = @getRedisProject _ _ other pid w.
Proof.
  intros Hhit Hpayload.
  pose proof (@getRedisProject_cases _ _ store w pid) as Hrun.
  pose proof (@getRedisProject_cases _ _ other w pid) as Hother.
  cbv zeta in *. rewrite Hhit in Hrun, Hother.
  destruct payload as [|c rest]; [done|]. by rewrite Hrun, Hother.
Qed.

End StaleCache.

Section CacheLaws.
Context `{Engine} `{Constants} `{Store} `{RedisClient}.

(** X15: a miss warms the cache.  After a lookup that missed and found a
    row, a second lookup of the same identifier is served from the cache:
    it returns the same project, provided the JSON codec reads back what
    it wrote, and its only effect is the cache read. *)
Theorem getRedisProject_miss_then_hit (w : World) (pid : string) (row : any) :
  let key := getRedisProjectKey pid in
  let project := AObj (formatFromClickhouse row) in
  redis w !! key = None →
  getProjectsClickhouse pid = Ok row →
  JSON_stringify project ≠ EmptyString →
  JSON_parse (JSON_stringify project) = Some project →
  let w1 := snd (getRedisProject pid w) in
  fst (getRedisProject pid w) = Ok project
  ∧ getRedisProject pid w1 =
    (Ok project,
     {| redis := redis w1; journal := journal w1 ++ [RedisGet key] |}).
Proof.
  cbv zeta. intros Hmiss Hrow Hjson Hcodec.
  pose proof (getRedisProject_cases w pid) as Hfirst. cbv zeta in Hfirst.
  rewrite Hmiss, Hrow in Hfirst. rewrite Hfirst. simpl fst. simpl snd.
  split; [done|].
  pose proof (getRedisProject_cases
                {| redis := <[getRedisProjectKey pid :=
                              (JSON_stringify (AObj (formatFromClickhouse row)),
                               redisProjectCacheTimeout)]> (redis w);
                   journal := journal w ++
                     [RedisGet (getRedisProjectKey pid); SelectProject pid;
                      RedisSet (getRedisProjectKey pid)
                        (JSON_stringify (AObj (formatFromClickhouse row))) "EX"
                        redisProjectCacheTimeout] |} pid) as Hsecond.
  cbv zeta in Hsecond. simpl redis in Hsecond.
  rewrite lookup_insert_eq in Hsecond.
  destruct (JSON_stringify (AObj (formatFromClickhouse row))) as [|c rest] eqn:Hs;
    [done|].
  rewrite Hcodec in Hsecond. exact Hsecond.
Qed.

(** X16: a lookup touches one cache entry only.  Whatever the cache and
    the store hold, after [getRedisProject pid] every entry under another
    key is as it was. *)
Theorem getRedisProject_other_keys (w : World) (pid : string) :
  delete (getRedisProjectKey pid) (redis (snd (getRedisProject pid w)))
  = delete (getRedisProjectKey pid) (redis w).
Proof.
  pose proof (getRedisProject_cases w pid) as Hrun. cbv zeta in Hrun.
  rewrite Hrun.
  destruct (redis w !! getRedisProjectKey pid) as [[[|c rest] ttl]|];
    try destruct (getProjectsClickhouse pid); simpl;
    by rewrite ?delete_insert_eq.
Qed.

(** X18: [deleteProjectRedis] never throws and touches one entry only.
    Every other cache entry and the journal are as before; when the client
    accepts the delete the project's entry is gone; when the client rejects
    it the cache is unchanged and one line naming the project and the error
    goes to the console. *)
Theorem deleteProjectRedis_post (id : string) (w : World) :
  let key := getRedisProjectKey id in
  let done := deleteProjectRedis id w in
  let w' := snd (fst done) in
  fst (fst done) = Ok tt
  ∧ journal w' = journal w
  ∧ delete key (redis w') = delete key (redis w)
  ∧ match redis_del_rejection key with
    | None => redis w' !! key = None ∧ snd done = [RedisDel key]
    | Some e =>
        w' = w
        ∧ snd done =
          [RedisDel key;
           ConsoleError ("Error deleting project " +:+ id +:+ " from redis: "
                         +:+ Error_toString e)]
    end.
Proof.
  cbv zeta. unfold deleteProjectRedis, redis_del.
  destruct (redis_del_rejection (getRedisProjectKey id)) as [e|]; simpl.
  - done.
  - split_and!; try done.
    + apply map_eq. intros k.
      destruct (decide (k = getRedisProjectKey id)) as [->|Hk].
      * by rewrite !lookup_delete_eq.
      * by rewrite !lookup_delete_ne.
    + apply lookup_delete_eq.
Qed.

(** X19: delete, then look up.  After [deleteProjectRedis] that the client
    accepted, [getRedisProject] of the same identifier asks the store,
    whatever was cached before; after one that the client rejected (the
    error is swallowed) a cached project is still served from the cache. *)
Theorem getRedisProject_after_delete (pid : string) (w : World) :
  let key := getRedisProjectKey pid in
  let w' := snd (fst (deleteProjectRedis pid w)) in
  (redis_del_rejection key = None →
     fst (getRedisProject pid w') =
     match getProjectsClickhouse pid with
     | Ok row => Ok (AObj (formatFromClickhouse row))
     | Throw e => Throw e
     end
     ∧ journal (snd (getRedisProject pid w'))
       = (journal w ++ RedisGet key :: SelectProject pid ::
            match getProjectsClickhouse pid with
            | Ok row =>
                [RedisSet key (JSON_stringify (AObj (formatFromClickhouse row)))
                   "EX" redisProjectCacheTimeout]
            | Throw _ => []
            end)%list)
  ∧ (∀ e, redis_del_rejection key = Some e →
       getRedisProject pid w' = getRedisProject pid w).
Proof.
  cbv zeta. unfold deleteProjectRedis, redis_del. split.
  - intros ->. simpl snd.
    pose proof (getRedisProject_cases
                  {| redis := delete (getRedisProjectKey pid) (redis w);
                     journal := journal w |} pid) as Hrun.
    cbv zeta in Hrun. simpl redis in Hrun. rewrite lookup_delete_eq in Hrun.
    rewrite Hrun. by destruct (getProjectsClickhouse pid).
  - intros e ->. done.
Qed.


End CacheLaws.

(* ================================================================== *)
(** ** Visibility of a stored row *)
(* ================================================================== *)

Section VisibilityLaws.
Context `{Engine}.

(** X21: translation does not change who may view.  [allowedToView]
    gives the same verdict on a row as it comes from storage and on its
    translation by [formatFromClickhouse]: the stored flag 1 (or any truthy
    value) opens the project to everyone, 0 to signed-in viewers only. *)
Theorem allowedToView_formatFromClickhouse (row : any) (uid : option string) :
  allowedToView (formatFromClickhouse row) uid = allowedToView (spread row) uid.
Proof.
  unfold allowedToView.
  by rewrite (get_lookup _ _ _ (formatFromClickhouse_flag row "public"
                                  (or_intror eq_refl))).
Qed.

End VisibilityLaws.

(* ================================================================== *)
(** ** Examples *)
(* ================================================================== *)

Section Examples.
Import Fixture.
#[local] Existing Instance store.

Ltac run :=
  lazymatch goal with
  | |- _ = _ => vm_compute; exact eq_refl
  end.

(** C1 at the example project: it survives the round trip. *)
Lemma formatFromClickhouse_formatToClickhouse_project :
  formatFromClickhouse (AObj (formatToClickhouse (AObj project))) = project.
Proof.
  apply (formatFromClickhouse_formatToClickhouse project true false
           ["example.com"; "*.example.org"] ["10.0.0.1"; "192.168.0.0/16"]);
    first [ run | discriminate ].
Defined.

(** C1 as stated fails: a project with [origins: null] and
    [ipBlacklist: []] comes back with [origins: []] and
    [ipBlacklist: ['']]. *)
Lemma roundtrip_changes_null_and_empty_list :
  formatFromClickhouse (AObj (formatToClickhouse (AObj bare_project)))
  = <["origins" := VArr []]> (<["ipBlacklist" := VArr [VStr ""]]> bare_project)
  ∧ formatFromClickhouse (AObj (formatToClickhouse (AObj bare_project)))
    ≠ bare_project.
Proof.
  split; [run|]. intros Heq.
  apply (f_equal (fun o : obj => o !! "origins")) in Heq.
  vm_compute in Heq. discriminate.
Qed.

(** C2 as stated fails: a private project and the viewer identity [""],
    which is not [null], are refused. *)
Lemma allowedToView_refuses_empty_uid :
  Some "" ≠ (None : option string)
  ∧ Boolean (get bare_project "public") = false
  ∧ allowedToView bare_project (Some "")
    = Throw (ForbiddenException "You are not allowed to view this project").
Proof. split_and!; [discriminate|run|run]. Qed.

(** C3 as stated fails: a taken identifier raises [BadRequestException],
    which is not a conflict. *)
Lemma checkIfIDUnique_throws_bad_request :
  isPIDUnique [project] "ABCDEFGHIJKL" = false
  ∧ checkIfIDUnique [project] "ABCDEFGHIJKL"
    = Throw (BadRequestException "Selected project ID is already in use")
  ∧ (∀ msg, checkIfIDUnique [project] "ABCDEFGHIJKL" ≠ Throw (ConflictException msg)).
Proof. split_and!; [run|run|]. intros msg. vm_compute. discriminate. Qed.

(** C4 at the failing input: an identifier the store has no row for
    ([getProjectsClickhouse] resolves to [undefined]) and an empty cache.
    The call returns a project made of nothing and caches it. *)
Lemma getRedisProject_miss_unknown_pid :
  getRedisProject "ZZZZZZZZZZZZ" empty_world =
  (Ok (AObj project_of_nothing),
   {| redis := {[ "pid_ZZZZZZZZZZZZ" := (json_stringify (AObj project_of_nothing), 3600%Z) ]};
      journal := [RedisGet "pid_ZZZZZZZZZZZZ"; SelectProject "ZZZZZZZZZZZZ";
                  RedisSet "pid_ZZZZZZZZZZZZ" (json_stringify (AObj project_of_nothing))
                    "EX" 3600%Z] |}).
Proof.
  refine (eq_trans (getRedisProject_miss empty_world "ZZZZZZZZZZZZ" _) _).
  - left. run.
  - run.
Defined.

(** C5 at a warm cache and at a corrupt one. *)
Lemma getRedisProject_hit_examples :
  getRedisProject "ABCDEFGHIJKL" warm_world =
    (Ok (AObj project),
     {| redis := redis warm_world; journal := [RedisGet "pid_ABCDEFGHIJKL"] |})
  ∧ getRedisProject "ABCDEFGHIJKL" corrupt_world =
    (Throw (InternalServerErrorException "Error while processing project"),
     {| redis := redis corrupt_world; journal := [RedisGet "pid_ABCDEFGHIJKL"] |}).
Proof.
  split.
  - refine (eq_trans (getRedisProject_hit warm_world "ABCDEFGHIJKL"
                        (json_stringify (AObj project)) 3600 _ _) _).
    + run.
    + vm_compute. discriminate.
    + run.
  - refine (eq_trans (getRedisProject_hit corrupt_world "ABCDEFGHIJKL"
                        "{not json" 3600 _ _) _).
    + run.
    + discriminate.
    + run.
Defined.

(** C6 at the boundaries: names of 50 and 51 characters, in Latin letters
    (one byte each) and in Cyrillic ones (two bytes each), and lists joined
    to 300 and 301 characters. *)
Lemma validateProject_boundaries_examples :
  validateProject (dto (letters "a" 50) [] []) true = Ok tt
  ∧ validateProject (dto (letters "a" 51) [] []) true
    = Throw (UnprocessableEntityException "The project name is too long")
  ∧ validateProject (dto (letters "a" 50) [letters "a" 149; letters "b" 150] ["10.0.0.1"]) false
    = Ok tt
  ∧ validateProject (dto "Shop" [letters "a" 150; letters "b" 150] ["10.0.0.1"]) false
    = Throw (UnprocessableEntityException
               "The list of allowed origins has to be smaller than 300 symbols")
  ∧ validateProject (dto "Shop" ["example.com"] ips_300) false = Ok tt
  ∧ validateProject (dto "Shop" ["example.com"] ips_301) false
    = Throw (UnprocessableEntityException
               "The list of allowed blacklisted IP addresses must be less than 300 characters.")
  ∧ validateProject (dto (times 50 ya) [] []) true = Ok tt
  ∧ validateProject (dto (times 51 ya) [] []) true
    = Throw (UnprocessableEntityException "The project name is too long").
Proof.
  split_and!; cycle 6.
  - destruct (validateProject_boundaries (dto (times 50 ya) [] []) (times 50 ya))
      as (Hpass & _); [run|]. apply Hpass. run.
  - destruct (validateProject_boundaries (dto (times 51 ya) [] []) (times 51 ya))
      as (_ & Hfail & _); [run|]. apply Hfail. run.
  - destruct (validateProject_boundaries (dto (letters "a" 50) [] []) (letters "a" 50))
      as (Hpass & _); [run|]. apply Hpass. run.
  - destruct (validateProject_boundaries (dto (letters "a" 51) [] []) (letters "a" 51))
      as (_ & Hfail & _); [run|]. apply Hfail. run.
  - destruct (validateProject_boundaries
                (dto (letters "a" 50) [letters "a" 149; letters "b" 150] ["10.0.0.1"])
                (letters "a" 50)) as (_ & _ & Hupdate); [run|].
    destruct Hupdate as (Hpass & _); [vm_compute; lia|run|].
    apply Hpass; [run|vm_compute; lia|split; run].
  - destruct (validateProject_boundaries
                (dto "Shop" [letters "a" 150; letters "b" 150] ["10.0.0.1"]) "Shop")
      as (_ & _ & Hupdate); [run|].
    destruct Hupdate as (_ & Hfail & _); [vm_compute; lia|run|].
    apply Hfail. run.
  - destruct (validateProject_boundaries (dto "Shop" ["example.com"] ips_300) "Shop")
      as (_ & _ & Hupdate); [run|].
    destruct Hupdate as (_ & _ & Hpass & _); [vm_compute; lia|run|].
    apply Hpass; [vm_compute; lia|run|split; run].
  - destruct (validateProject_boundaries (dto "Shop" ["example.com"] ips_301) "Shop")
      as (_ & _ & Hupdate); [run|].
    destruct Hupdate as (_ & _ & _ & Hfail); [vm_compute; lia|run|].
    apply Hfail; [vm_compute; lia|run].
Defined.

(** C7 at the scenario of the specification, and at a longer list whose
    third entry is the first bad one: the first passes once its no-break
    space is trimmed, the second once its spaces are. *)
Lemma validateProject_first_bad_ip_examples :
  validateProject (dto "Shop" ["example.com"] ["10.0.0.999"]) false
    = Throw (ConflictException "IP address 10.0.0.999 is not correct")
  ∧ validateProject
      (dto "Shop" ["example.com"]
         [nbsp +:+ "10.0.0.1"; " 192.168.0.0/16 "; "10.0.0.999"; "nonsense"]) false
    = Throw (ConflictException "IP address 10.0.0.999 is not correct").
Proof.
  split.
  - apply (validateProject_first_bad_ip
             (dto "Shop" ["example.com"] ["10.0.0.999"])
             [] (VStr "10.0.0.999") []);
      first [ apply Forall_nil_2 | run | vm_compute; lia ].
  - apply (validateProject_first_bad_ip
             (dto "Shop" ["example.com"]
                [nbsp +:+ "10.0.0.1"; " 192.168.0.0/16 "; "10.0.0.999"; "nonsense"])
             [VStr (nbsp +:+ "10.0.0.1"); VStr " 192.168.0.0/16 "] (VStr "10.0.0.999")
             [VStr "nonsense"]);
      first [ run | vm_compute; lia | apply Forall_cons_2 ];
      [left; vm_compute; discriminate|].
    apply Forall_cons_2; [right; run|]. apply Forall_nil_2.
Defined.

(** C8 as stated fails: a malformed row is coerced into a Project without
    any failure, and so is a row that is not there. *)
Lemma formatFromClickhouse_coerces_malformed_row :
  is_row malformed_row = false
  ∧ formatFromClickhouse (AObj malformed_row)
    = <["id" := VStr "ABCDEFGHIJKL"]>
      (<["active" := VBool true]> (<["public" := VBool true]>
      (<["origins" := VArr [VStr "true"]]>
      (<["ipBlacklist" := VArr [VStr "null"]]> ∅))))
  ∧ is_Project (formatFromClickhouse (AObj malformed_row)) = true
  ∧ formatFromClickhouse (AVal VUndefined) = project_of_nothing.
Proof. split_and!; run. Qed.

(** C9 at a store whose [customEV] delete fails: the call throws that
    error, and all three commands were issued. *)
Example removeDataFromClickhouse_partial_failure :
  removeDataFromClickhouse "ABCDEFGHIJKL" "2024-01-01" "2024-02-01" empty_world =
  (Throw (Error "Code: 241. Memory limit exceeded"),
   {| redis := ∅;
      journal :=
        let params := {| param_pid := "ABCDEFGHIJKL"; param_from := "2024-01-01";
                         param_to := "2024-02-01" |} in
        [ClickhouseQuery queryAnalytics params;
         ClickhouseQuery queryCustomEvents params;
         ClickhouseQuery queryPerformance params] |}).
Proof. run. Qed.

End Examples.

(* ================================================================== *)
(** ** More examples *)
(* ================================================================== *)

Section MoreExamples.
Import Fixture.
#[local] Existing Instance store.

Ltac run :=
  lazymatch goal with
  | |- _ = _ => vm_compute; exact eq_refl
  end.

(** X1 at the example row. *)
Lemma formatToClickhouse_formatFromClickhouse_row :
  formatToClickhouse (AObj (formatFromClickhouse (AObj row))) = row.
Proof.
  apply (formatToClickhouse_formatFromClickhouse row true false
           "example.com,*.example.org" "10.0.0.1,192.168.0.0/16"); run.
Defined.

(** X3 at the example row: translating the translation again gives the
    example project. *)
Lemma formatFromClickhouse_idempotent_row :
  formatFromClickhouse (AObj (formatFromClickhouse (AObj row))) = project.
Proof.
  refine (eq_trans (formatFromClickhouse_idempotent (AObj row) _ _) _).
  - vm_compute. discriminate.
  - vm_compute. discriminate.
  - run.
Defined.

(** X4 at an object with nothing but a name. *)
Lemma formatToClickhouse_missing_fields_named :
  formatToClickhouse (AObj {[ "name" := VStr "Shop" ]})
  = <["name" := VStr "Shop"]> (<["active" := VNum NaN]> (<["public" := VNum NaN]>
    (<["origins" := VStr ""]> (<["ipBlacklist" := VStr ""]> ∅)))).
Proof.
  destruct (formatToClickhouse_missing_fields {[ "name" := VStr "Shop" ]})
    as (Hflags & Hlists & _ & Hothers).
  apply map_eq. intros k.
  destruct (decide (k ∈ ["active"; "public"])) as [Hk|Hk1].
  { rewrite (Hflags k Hk) by (set_unfold; destruct Hk as [-> | [-> | []]]; run).
    set_unfold. destruct Hk as [-> | [-> | []]]; run. }
  destruct (decide (k ∈ ["origins"; "ipBlacklist"])) as [Hk|Hk2].
  { rewrite (Hlists k Hk) by (set_unfold; destruct Hk as [-> | [-> | []]]; run).
    set_unfold. destruct Hk as [-> | [-> | []]]; run. }
  rewrite Hothers by (unfold list_keys; set_solver).
  assert ("active" ≠ k ∧ "public" ≠ k ∧ "origins" ≠ k ∧ "ipBlacklist" ≠ k)
    as (? & ? & ? & ?) by set_solver.
  destruct (decide (k = "name")) as [->|]; by simplify_map_eq.
Defined.

(** X5: on creation an invalid identifier and bad entries go unnoticed. *)
Lemma validateProject_creating_name_only_examples :
  validateProject (set (dto "Shop" ["not a host"] ["10.0.0.999"]) "id" (VStr "?")) true
  = validateProject (dto "Shop" [] []) true
  ∧ validateProject (set (dto "Shop" ["not a host"] ["10.0.0.999"]) "id" (VStr "?")) true
    = Ok tt.
Proof.
  destruct (validateProject_creating_name_only
              (set (dto "Shop" ["not a host"] ["10.0.0.999"]) "id" (VStr "?"))
              (dto "Shop" [] [])) as (Hsame & Hok); [run|].
  split; [exact Hsame|]. apply Hok. vm_compute. lia.
Defined.

(** X7: the first origin passes once its no-break space and space are
    trimmed, the second is the first bad one; the bad IP entry is not
    reached. *)
Lemma validateProject_first_bad_host_example :
  validateProject
    (dto "Shop" [nbsp +:+ "example.com "; "not a host"; "???"] ["10.0.0.999"]) false
  = Throw (ConflictException "Host not a host is not correct").
Proof.
  apply (validateProject_first_bad_host
           (dto "Shop" [nbsp +:+ "example.com "; "not a host"; "???"] ["10.0.0.999"])
           [VStr (nbsp +:+ "example.com ")] (VStr "not a host") [VStr "???"]);
    first [ run | vm_compute; lia | idtac ].
  apply Forall_cons_2; [run|]. apply Forall_nil_2.
Defined.

(** X8: an update with [origins: null] and no [ipBlacklist] at all. *)
Lemma validateProject_null_lists_example :
  validateProject
    (<["id" := VStr "ABCDEFGHIJKL"]> (<["name" := VStr "Shop"]>
       (<["origins" := VNull]> ∅))) false
  = Ok tt.
Proof.
  apply validateProject_null_lists;
    first [ run | vm_compute; lia | left; run | right; run ].
Defined.

(** X9 at a DTO with everything wrong, and at one with a good name. *)
Lemma validateProject_error_order_examples :
  validateProject
    (set (dto (letters "a" 51) ["not a host"] ["10.0.0.999"]) "id" (VStr "?")) false
  = Throw (UnprocessableEntityException "The project name is too long")
  ∧ validateProject
      (set (dto "Shop" ["not a host"] ["10.0.0.999"]) "id" (VStr "?")) false
    = Throw (UnprocessableEntityException "The provided Project ID (pid) is incorrect").
Proof.
  split.
  - destruct (validateProject_error_order
                (set (dto (letters "a" 51) ["not a host"] ["10.0.0.999"])
                   "id" (VStr "?"))) as (Hname & _).
    apply Hname. vm_compute. lia.
  - destruct (validateProject_error_order
                (set (dto "Shop" ["not a host"] ["10.0.0.999"]) "id" (VStr "?")))
      as (_ & Hrest).
    destruct Hrest as (Hpid & _); [vm_compute; lia|]. apply Hpid. run.
Defined.

(** X10: entries padded with spaces and no-break spaces are accepted like
    the bare ones. *)
Lemma validateProject_trimmed_entries_example :
  validateProject (dto "Shop" [nbsp +:+ " example.com "] [nbsp +:+ "10.0.0.1"; "10.0.0.0/8  "]) false
  = Ok tt.
Proof.
  apply (validateProject_trimmed_entries
           (dto "Shop" [nbsp +:+ " example.com "] [nbsp +:+ "10.0.0.1"; "10.0.0.0/8  "])
           (dto "Shop" ["example.com"] ["10.0.0.1"; "10.0.0.0/8"]));
    first [ run | vm_compute; lia ].
Defined.

(** X13: a project whose identifier is the number 1 and one without
    identifier do not take the identifier "1". *)
Lemma isPIDUnique_non_string_ids_example :
  isPIDUnique [numbered_project; anonymous_project] "1" = true
  ∧ checkIfIDUnique [numbered_project; anonymous_project] "1" = Ok tt.
Proof.
  apply isPIDUnique_non_string_ids.
  apply Forall_cons_2; [run|]. apply Forall_cons_2; [run|]. apply Forall_nil_2.
Defined.

(** X15: the scenario of a miss followed by a hit, for the example row. *)
Lemma getRedisProject_miss_then_hit_example :
  fst (getRedisProject "ABCDEFGHIJKL" empty_world) = Ok (AObj project)
  ∧ getRedisProject "ABCDEFGHIJKL" (snd (getRedisProject "ABCDEFGHIJKL" empty_world))
    = (Ok (AObj project),
       {| redis := {[ "pid_ABCDEFGHIJKL" := (json_stringify (AObj project), 3600%Z) ]};
          journal :=
            [RedisGet "pid_ABCDEFGHIJKL"; SelectProject "ABCDEFGHIJKL";
             RedisSet "pid_ABCDEFGHIJKL" (json_stringify (AObj project)) "EX" 3600%Z;
             RedisGet "pid_ABCDEFGHIJKL"] |}).
Proof.
  destruct (getRedisProject_miss_then_hit empty_world "ABCDEFGHIJKL" (AObj row))
    as (Hfirst & Hsecond).
  - run.
  - run.
  - vm_compute. discriminate.
  - run.
  - split.
    + refine (eq_trans Hfirst _). run.
    + refine (eq_trans Hsecond _). run.
Defined.

(** X17: the warm cache answers alike over the example store and over a
    store that has lost the project. *)
Lemma getRedisProject_hit_any_store_example :
  @getRedisProject engine constants store "ABCDEFGHIJKL" warm_world
  = @getRedisProject engine constants empty_store "ABCDEFGHIJKL" warm_world.
Proof.
  apply (getRedisProject_hit_any_store store empty_store warm_world
           "ABCDEFGHIJKL" (json_stringify (AObj project)) 3600).
  - run.
  - vm_compute. discriminate.
Defined.

(** X19: over a warm cache, a delete that the client accepts sends the
    next lookup to the store; one that the client rejects leaves the cached
    project in place. *)
Lemma getRedisProject_after_delete_examples :
  fst (getRedisProject "ABCDEFGHIJKL"
         (snd (fst (@deleteProjectRedis constants redis_up "ABCDEFGHIJKL" warm_world))))
  = Ok (AObj project)
  ∧ journal (snd (getRedisProject "ABCDEFGHIJKL"
         (snd (fst (@deleteProjectRedis constants redis_up "ABCDEFGHIJKL" warm_world)))))
    = [RedisGet "pid_ABCDEFGHIJKL"; SelectProject "ABCDEFGHIJKL";
       RedisSet "pid_ABCDEFGHIJKL" (json_stringify (AObj project)) "EX" 3600%Z]
  ∧ getRedisProject "ABCDEFGHIJKL"
      (snd (fst (@deleteProjectRedis constants redis_down "ABCDEFGHIJKL" warm_world)))
    = getRedisProject "ABCDEFGHIJKL" warm_world.
Proof.
  destruct (@getRedisProject_after_delete engine constants store redis_up
              "ABCDEFGHIJKL" warm_world) as (Haccepted & _).
  destruct (@getRedisProject_after_delete engine constants store redis_down
              "ABCDEFGHIJKL" warm_world) as (_ & Hrejected).
  destruct Haccepted as (Hresult & Hjournal); [run|].
  split_and!.
  - refine (eq_trans Hresult _). run.
  - refine (eq_trans Hjournal _). run.
  - apply (Hrejected (Error "Connection is closed.")). run.
Defined.

(** X18 with the connection closed: the call returns, the cache keeps the
    entry, the console gets the line. *)
Example deleteProjectRedis_connection_closed :
  @deleteProjectRedis constants redis_down "ABCDEFGHIJKL" warm_world
  = (Ok tt, warm_world,
     [RedisDel "pid_ABCDEFGHIJKL";
      ConsoleError "Error deleting project ABCDEFGHIJKL from redis: Error: Connection is closed."]).
Proof. run. Qed.

End MoreExamples.
